(** * The NDVI time-series endpoint of the EarthWatch backend

    A shallow embedding of the [POST /api/ndvi-timeseries] handler of the
    Node.js backend (the part that turns the features fetched from Earth
    Engine into the JSON answer) and the properties of its split-mean
    change heuristic.

    JavaScript numbers are IEEE 754 binary64 values: they are modelled by
    Rocq's primitive floats, whose operations are the binary64 ones, so a
    concrete series evaluates here to the very bits Node computes. *)

From Stdlib Require Import ZArith Bool String Ascii List Lia.
From Stdlib Require Import Sorting.Sorted Sorting.Permutation.
From Stdlib Require Import Uint63 Floats.
Import ListNotations.

#[local] Set Warnings "-inexact-float".
#[local] Open Scope string_scope.
#[local] Open Scope float_scope.

(** ** JavaScript numbers *)

Module JS.

(** [ToNumber] of an array length (lengths stay below [2^32]). *)
Definition of_length (n : nat) : float :=
  of_uint63 (Uint63.of_Z (Z.of_nat n)).

(** [x > y]. *)
Definition gt (x y : float) : bool := y <? x.

(** [Math.abs]. *)
Definition Math_abs (x : float) : float := abs x.

(** Is [x] the zero with the sign bit set? *)
Definition is_neg_zero (x : float) : bool :=
  match classify x with
  | NZero => true
  | _ => false
  end.

(** [Math.min] of two numbers: NaN when an argument is NaN, and [-0]
    counts as smaller than [+0]. *)
Definition Math_min (a b : float) : float :=
  if is_nan a || is_nan b then nan
  else if (a <? b) then a
  else if (b <? a) then b
  else if is_neg_zero a then a
  else b.

(** [Math.floor(n / 2)] for an array length [n]: [n / 2] is exact in
    binary64 for every length, so its floor is the integer quotient. *)
Definition floor_half (n : nat) : nat := (n / 2)%nat.

(** [arr.reduce((a, b) => a + b, 0)]: a left fold from [0]. *)
Definition sum (l : list float) : float :=
  fold_left (fun a b => a + b) l 0.

End JS.

(** ** Dates

    [new Date(s)] on a date-only string [YYYY-MM-DD] (the form Earth
    Engine's [format('YYYY-MM-dd')] produces) is midnight UTC of that day;
    its time value is a number of milliseconds.  [None] stands for the
    [NaN] time value of an invalid date.  The parser below reads that
    form only, with a day that exists in its month; engines read more
    strings than these, so it stands for [new Date] on such dates alone,
    which are the dates of every sample input of this file. *)

Module IsoDate.

Definition digit (c : ascii) : option Z :=
  let n := Z.of_nat (nat_of_ascii c) in
  if (48 <=? n)%Z && (n <=? 57)%Z then Some (n - 48)%Z else None.

Fixpoint number (acc : Z) (l : list ascii) : option Z :=
  match l with
  | [] => Some acc
  | c :: l' =>
      match digit c with
      | Some d => number (10 * acc + d)%Z l'
      | None => None
      end
  end.

Definition is_leap (y : Z) : bool :=
  ((y mod 4 =? 0) && negb (y mod 100 =? 0) || (y mod 400 =? 0))%Z.

Definition days_in_month (y m : Z) : Z :=
  if (m =? 2)%Z then (if is_leap y then 29 else 28)%Z
  else if ((m =? 4) || (m =? 6) || (m =? 9) || (m =? 11))%Z then 30%Z
  else 31%Z.

(** Days from 1970-01-01 to the given civil date (proleptic Gregorian). *)
Definition days_from_civil (y m d : Z) : Z :=
  let y' := (if m <=? 2 then y - 1 else y)%Z in
  let era := (y' / 400)%Z in
  let yoe := (y' - era * 400)%Z in
  let mp := ((m + 9) mod 12)%Z in
  let doy := ((153 * mp + 2) / 5 + d - 1)%Z in
  let doe := (yoe * 365 + yoe / 4 - yoe / 100 + doy)%Z in
  (era * 146097 + doe - 719468)%Z.

Definition ms_per_day : Z := 86400000.

Definition parse (s : string) : option Z :=
  match list_ascii_of_string s with
  | [y1; y2; y3; y4; "-"%char; m1; m2; "-"%char; d1; d2] =>
      match number 0 [y1; y2; y3; y4], number 0 [m1; m2], number 0 [d1; d2] with
      | Some y, Some m, Some d =>
          if ((1 <=? m) && (m <=? 12) && (1 <=? d) && (d <=? days_in_month y m))%Z
          then Some (days_from_civil y m d * ms_per_day)%Z
          else None
      | _, _, _ => None
      end
  | _ => None
  end.

End IsoDate.

(** ** The data of the endpoint *)

(** A GeoJSON geometry; the handler only passes it on. *)
Definition geojson := string.

(** The body of a request: [{ aoi, startDate, endDate }]. *)
Record request := {
  aoi : geojson;
  startDate : string;
  endDate : string
}.

(** The properties of one feature of the collection Earth Engine returns:
    the acquisition date and the mean NDVI over the area, [null] ([None])
    when the reduction found no pixel. *)
Record feature := {
  prop_date : string;
  prop_ndvi_mean : option float
}.

(** An entry of [timeseries]: [{ date, ndvi_mean }]. *)
Record item := {
  date : string;
  ndvi_mean : option float
}.

Record date_range_t := {
  range_start : string;
  range_end : string
}.

(** The [summary] object of the answer. *)
Record summary_t := {
  mean : float;
  change_detected : bool;
  confidence : float;
  total_observations : nat;
  date_range : date_range_t
}.

(** The answers of the handler, by HTTP status. *)
Inductive response :=
| NotReady (authenticated initialized : bool)            (* 503 *)
| NoData                                                 (* 404 *)
| Analysis (a : geojson) (ndvi_timeseries : list item) (summary : summary_t)  (* 200 *)
| Failed.                                                (* 500 *)

(** The two global flags of the Earth Engine client. *)
Record gee_state := {
  geeAuthenticated : bool;
  geeInitialized : bool
}.

Definition isGEEReady (st : gee_state) : bool :=
  geeAuthenticated st && geeInitialized st.

(** ** The handler *)

Section Handler.

(** The time value of [new Date(s)]; [None] is [NaN] (an invalid date). *)
Variable Date_value : string -> option Z.

(** [val !== null]. *)
Definition not_null (v : option float) : bool :=
  match v with
  | Some _ => true
  | None => false
  end.

(** [new Date(it.date)], as a time value. *)
Definition time_of (it : item) : option Z := Date_value (date it).

(** [new Date(a.date) - new Date(b.date)]: time values are integers of
    magnitude at most 8.64e15, so the difference is exact; it is [NaN]
    ([None]) as soon as one date is invalid. *)
Definition date_diff (a b : item) : option Z :=
  match time_of a, time_of b with
  | Some ta, Some tb => Some (ta - tb)%Z
  | _, _ => None
  end.

(** What [Array.prototype.sort] makes of the comparator's result: a [NaN]
    is read as [+0]. *)
Definition sort_compare (a b : item) : Z :=
  match date_diff a b with
  | Some v => v
  | None => 0%Z
  end.

(** [Array.prototype.sort] is stable: elements the comparator does not
    order strictly keep their relative order.  When every date is valid
    the comparator is consistent and the sorted array is the one a stable
    insertion sort computes; with an invalid date ECMAScript leaves the
    order to the engine, and the insertion below fixes one. *)
Fixpoint insert_item (x : item) (l : list item) : list item :=
  match l with
  | [] => [x]
  | y :: l' =>
      if (sort_compare x y <=? 0)%Z then x :: y :: l'
      else y :: insert_item x l'
  end.

Fixpoint Array_sort (l : list item) : list item :=
  match l with
  | [] => []
  | x :: l' => insert_item x (Array_sort l')
  end.

Definition item_of (f : feature) : item :=
  {| date := prop_date f; ndvi_mean := prop_ndvi_mean f |}.

(** [results.features.map(...).filter(item => item.ndvi_mean !== null)] *)
Definition valid_items (features : list feature) : list item :=
  filter (fun it => not_null (ndvi_mean it)) (map item_of features).

(** [... .sort((a, b) => new Date(a.date) - new Date(b.date))] *)
Definition timeseries (features : list feature) : list item :=
  Array_sort (valid_items features).

(** [timeseries.map(item => item.ndvi_mean).filter(val => val !== null)],
    as the list of the numbers that remain. *)
Definition ndviValues (ts : list item) : list float :=
  flat_map (fun it => match ndvi_mean it with
                      | Some v => [v]
                      | None => []
                      end) ts.

(** [l.length > 0 ? l.reduce((a, b) => a + b, 0) / l.length : 0] *)
Definition mean_or_zero (l : list float) : float :=
  match l with
  | [] => 0
  | _ :: _ => JS.sum l / JS.of_length (length l)
  end.

Definition meanNdvi (values : list float) : float := mean_or_zero values.

Definition midPoint (values : list float) : nat := JS.floor_half (length values).

(** [ndviValues.slice(0, midPoint)] and [ndviValues.slice(midPoint)]. *)
Definition firstHalf (values : list float) : list float :=
  firstn (midPoint values) values.

Definition secondHalf (values : list float) : list float :=
  skipn (midPoint values) values.

Definition firstHalfMean (values : list float) : float :=
  mean_or_zero (firstHalf values).

Definition secondHalfMean (values : list float) : float :=
  mean_or_zero (secondHalf values).

(** [Math.abs(firstHalfMean - secondHalfMean)], which the handler writes
    out twice. *)
Definition raw_delta (values : list float) : float :=
  JS.Math_abs (firstHalfMean values - secondHalfMean values).

Definition threshold : float := 0.1.
Definition scale_factor : float := 2.

Definition changeDetected (values : list float) : bool :=
  JS.gt (raw_delta values) threshold.

Definition confidence_of (values : list float) : float :=
  JS.Math_min (raw_delta values * scale_factor) 1.

Definition summary_of (req : request) (ts : list item) : summary_t :=
  let values := ndviValues ts in
  {| mean := meanNdvi values;
     change_detected := changeDetected values;
     confidence := confidence_of values;
     total_observations := length ts;
     date_range := {| range_start := startDate req; range_end := endDate req |} |}.

(** The handler from the formatting of the fetched features on. *)
Definition evaluate (req : request) (features : list feature) : response :=
  let ts := timeseries features in
  match ts with
  | [] => NoData
  | _ :: _ => Analysis (aoi req) ts (summary_of req ts)
  end.

(** The whole handler: the readiness check, then the Earth Engine calls,
    whose outcome is either the features or an exception ([None]), caught
    and answered by a 500. *)
Definition ndvi_timeseries_handler (st : gee_state) (req : request)
    (getInfo : option (list feature)) : response :=
  if negb (isGEEReady st) then NotReady (geeAuthenticated st) (geeInitialized st)
  else match getInfo with
       | Some features => evaluate req features
       | None => Failed
       end.

End Handler.

(** ** The words of the specification *)

(** The arithmetic mean of a segment: the sum of its values over their
    number. *)
Definition arithmetic_mean (l : list float) : float :=
  JS.sum l / JS.of_length (length l).

(** The earliest and the latest date of a chronological series. *)
Definition series_date_range (ts : list item) : option date_range_t :=
  match ts with
  | [] => None
  | first :: _ =>
      Some {| range_start := date first; range_end := date (last ts first) |}
  end.

(** Does the entry carry the date string [d]? *)
Definition dated (d : string) (it : item) : bool := String.eqb (date it) d.

(** ** Binary64 at the level of its specification

    [Prim2SF] maps a primitive float to its sign, mantissa and exponent;
    the operations of [SpecFloat] at precision 53 and [emax = 1024] are the
    specification of the primitive ones. *)

Module Binary64.

#[local] Open Scope Z_scope.

Definition two_52 : positive := 4503599627370496.

(** The numbers [2] and [1]. *)
Definition SF_two : spec_float := S754_finite false two_52 (-51).
Definition SF_one : spec_float := S754_finite false two_52 (-52).

(** Doubling: a normal number gains one in the exponent (and overflows
    to infinity at the top), a subnormal one doubles its mantissa. *)
Definition SFdouble (x : spec_float) : spec_float :=
  match x with
  | S754_finite s m e =>
      if (Z.pos (digits2_pos m) =? 53) then
        if (e + 1 <=? 971) then S754_finite s m (e + 1) else S754_infinity s
      else S754_finite s m~0 e
  | _ => x
  end.

Definition SF_is_nan (x : spec_float) : bool :=
  match x with
  | S754_nan => true
  | _ => false
  end.

Definition SF_is_finite (x : spec_float) : bool :=
  match x with
  | S754_zero _ | S754_finite _ _ _ => true
  | _ => false
  end.

End Binary64.

(** ** Sample requests *)

Module Samples.

Definition req : request :=
  {| aoi := "{}"; startDate := "2024-01-01"; endDate := "2024-12-31" |}.

Definition sample (d : string) (v : option float) : feature :=
  {| prop_date := d; prop_ndvi_mean := v |}.

Definition entry (d : string) (v : float) : item :=
  {| date := d; ndvi_mean := Some v |}.

Definition summary (m : float) (c : bool) (k : float) (n : nat) : summary_t :=
  {| mean := m; change_detected := c; confidence := k;
     total_observations := n;
     date_range := {| range_start := "2024-01-01"; range_end := "2024-12-31" |} |}.

(** One valid sample of value [0.5]. *)
Definition single : list feature := [sample "2024-03-01" (Some 0.5)].

(** Four samples given out of order: [0.1, 0.1, 0.5, 0.5] by date. *)
Definition four : list feature :=
  [sample "2024-03-01" (Some 0.5); sample "2024-01-01" (Some 0.1);
   sample "2024-04-01" (Some 0.5); sample "2024-02-01" (Some 0.1)].

(** Only [null] values. *)
Definition all_null : list feature :=
  [sample "2024-03-01" None; sample "2024-03-02" None].

(** Two samples on the same day. *)
Definition same_day : list feature :=
  [sample "2024-03-01" (Some 0.2); sample "2024-03-01" (Some 0.4)].

(** Three samples on the same day, in two orders. *)
Definition three_a : list feature :=
  [sample "2024-03-01" (Some 0); sample "2024-03-01" (Some 0);
   sample "2024-03-01" (Some 0.5)].
Definition three_b : list feature :=
  [sample "2024-03-01" (Some 0.5); sample "2024-03-01" (Some 0);
   sample "2024-03-01" (Some 0)].

(** A difference of segment means of exactly [0.1]. *)
Definition boundary : list feature :=
  [sample "2024-03-01" (Some 0); sample "2024-03-02" (Some 0.1)].


(** Four huge values: each half sums to infinity. *)
Definition huge : list feature :=
  [sample "2024-03-01" (Some 1e308); sample "2024-03-02" (Some 1e308);
   sample "2024-03-03" (Some 1e308); sample "2024-03-04" (Some 1e308)].

End Samples.

(** ** The setup of the Earth Engine client

    [initializeGEE] authenticates, then initializes the client; each step
    ends by one of two callbacks, or by none.  When a step fails the catch
    block schedules the next attempt, as long as [retryCount < maxRetries]. *)

Module Setup.

Definition maxRetries : nat := 3.

(** How one attempt ends. *)
Inductive outcome :=
| AuthFails      (* the error callback of [authenticateViaPrivateKey] *)
| AuthHangs      (* no callback: the first promise never settles *)
| InitFails      (* authenticated, then the error callback of [initialize] *)
| InitHangs      (* authenticated, then no callback *)
| Succeeds.      (* both success callbacks *)

(** [geeAuthenticated = true] and [geeInitialized = true]. *)
Definition authenticated (st : gee_state) : gee_state :=
  {| geeAuthenticated := true; geeInitialized := geeInitialized st |}.

Definition initialized (st : gee_state) : gee_state :=
  {| geeAuthenticated := geeAuthenticated st; geeInitialized := true |}.

(** The values the two flags take during one attempt, in order. *)
Definition attempt_states (o : outcome) (st : gee_state) : list gee_state :=
  match o with
  | AuthFails | AuthHangs => []
  | InitFails | InitHangs => [authenticated st]
  | Succeeds => [authenticated st; initialized (authenticated st)]
  end.

(** Does the attempt reach the catch block? *)
Definition caught (o : outcome) : bool :=
  match o with
  | AuthFails | InitFails => true
  | AuthHangs | InitHangs | Succeeds => false
  end.

(** A run of the setup: the values of the flags after each callback, the
    number of attempts made, and whether the last one logged that the
    setup failed after all retries. *)
Record run := {
  trace : list gee_state;
  attempts : nat;
  gave_up : bool
}.

(** [initializeGEE(retryCount)] with [remaining = maxRetries - retryCount]:
    the test [retryCount < maxRetries] is [remaining] being a successor.
    [env k] is the outcome of the attempt made with [retryCount = k]. *)
Fixpoint initializeGEE_from (remaining : nat) (env : nat -> outcome)
    (retryCount : nat) (st : gee_state) : run :=
  let seen := attempt_states (env retryCount) st in
  if caught (env retryCount) then
    match remaining with
    | O => {| trace := seen; attempts := 1; gave_up := true |}
    | S r =>
        let rest := initializeGEE_from r env (S retryCount) (last seen st) in
        {| trace := (seen ++ trace rest)%list;
           attempts := S (attempts rest);
           gave_up := gave_up rest |}
    end
  else {| trace := seen; attempts := 1; gave_up := false |}.

Definition initializeGEE (env : nat -> outcome) (retryCount : nat)
    (st : gee_state) : run :=
  initializeGEE_from (maxRetries - retryCount) env retryCount st.

(** The flags when the module is loaded, and the call [initializeGEE()]
    made then. *)
Definition at_start : gee_state :=
  {| geeAuthenticated := false; geeInitialized := false |}.

Definition startup (env : nat -> outcome) : run := initializeGEE env 0 at_start.

(** The flags once the run is over. *)
Definition final (r : run) : gee_state := last (trace r) at_start.

(** The flags a request can meet: those of the start and of the trace. *)
Definition visible (r : run) : list gee_state := at_start :: trace r.

End Setup.

(** ** The single-value endpoint

    [POST /api/ndvi]: the same readiness check, then the median NDVI
    reduced to its mean over the area; an exception of the Earth Engine
    calls ([None]) is answered by a 500. *)

Inductive ndvi_response :=
| NdviNotReady (authenticated initialized : bool)        (* 503 *)
| NdviStats (ndvi_mean : option float) (a : geojson)     (* 200 *)
| NdviFailed.                                            (* 500 *)

Definition ndvi_handler (st : gee_state) (req : request)
    (getInfo : option (option float)) : ndvi_response :=
  if negb (isGEEReady st) then NdviNotReady (geeAuthenticated st) (geeInitialized st)
  else match getInfo with
       | Some stats_NDVI => NdviStats stats_NDVI (aoi req)
       | None => NdviFailed
       end.

(** ** Chronological order *)

(** [a] is dated no later than [b], both dates being valid. *)
Definition not_later (Date_value : string -> option Z) (a b : item) : Prop :=
  match time_of Date_value a, time_of Date_value b with
  | Some ta, Some tb => (ta <= tb)%Z
  | _, _ => False
  end.

(** The flags of [a] are still set in [b]. *)
Definition flags_kept (a b : gee_state) : Prop :=
  (geeAuthenticated a = true -> geeAuthenticated b = true) /\
  (geeInitialized a = true -> geeInitialized b = true).

(** ** Areas drawn on the map

    The two map components of the interface hand the application a GeoJSON
    polygon [{ type: "Polygon", coordinates: [ring] }]. *)

Module GeoJSON.

(** A point of the map, [[lat, lng]], and a GeoJSON position,
    [[lng, lat]]. *)
Definition latlng : Type := float * float.
Definition position : Type := float * float.

(** [p => [p[1], p[0]]], from one to the other. *)
Definition flip (p : float * float) : float * float := (snd p, fst p).

(** A ring; [None] is an entry that is [undefined]. *)
Definition ring : Type := list (option position).

Record polygon := { coordinates : list ring }.

(** The positions of a ring when none is [undefined]. *)
Fixpoint defined (r : ring) : option (list position) :=
  match r with
  | [] => Some []
  | None :: _ => None
  | Some c :: r' =>
      match defined r' with
      | Some l => Some (c :: l)
      | None => None
      end
  end.

(** A polygon of a single ring of [n] positions, the last one a copy of
    the first. *)
Definition closed_ring_of (n : nat) (a : polygon) : Prop :=
  exists (c : position) (mid : list position),
    coordinates a = [map Some (c :: mid ++ [c])%list] /\
    length (c :: mid ++ [c])%list = n.

End GeoJSON.

(** *** [MapComponent]: a polygon clicked point by point *)

Module MapDrawing.

Import GeoJSON.

(** The polygon [completeArea] builds: the points flipped, then
    [coordinates[0].push(coordinates[0][0])]. *)
Definition area_of (points : list latlng) : polygon :=
  let r := map (fun p => Some (flip p)) points in
  {| coordinates := [(r ++ [hd None r])%list] |}.

(** [selectedArea.coordinates[0].map(coord => [coord[1], coord[0]])], the
    positions of the polygon shown for the selected area; [None] when the
    expression throws. *)
Definition shown_positions (a : polygon) : option (list latlng) :=
  match coordinates a with
  | [] => None
  | r :: _ => option_map (map flip) (defined r)
  end.

(** The state of [DrawingHandler]. *)
Record drawing := {
  isDrawing : bool;
  currentPath : list latlng
}.

Definition idle : drawing := {| isDrawing := false; currentPath := [] |}.

(** Nothing in the path unless a polygon is being drawn, and then one to
    three points. *)
Definition drawing_ok (st : drawing) : Prop :=
  (isDrawing st = false -> currentPath st = []) /\
  (isDrawing st = true -> (1 <= length (currentPath st) <= 3)%nat).

Inductive map_event :=
| Click (p : latlng)
| DblClick.

(** [completeArea(points)]: the polygon goes to [onAreaSelect], and the
    state is reset (these updates come last in the handler). *)
Definition completeArea (points : list latlng) : drawing * option polygon :=
  (idle, Some (area_of points)).

(** The handlers of [useMapEvents]: the next state and the polygon handed
    to [onAreaSelect], if any. *)
Definition on_event (st : drawing) (e : map_event) : drawing * option polygon :=
  match e with
  | Click p =>
      if negb (isDrawing st) then
        ({| isDrawing := true; currentPath := [p] |}, None)
      else if (length (currentPath st) <? 4)%nat then
        if (length (currentPath st) =? 3)%nat then
          completeArea (currentPath st ++ [p])%list
        else
          ({| isDrawing := isDrawing st;
              currentPath := (currentPath st ++ [p])%list |}, None)
      else (st, None)
  | DblClick =>
      if isDrawing st && (3 <=? length (currentPath st))%nat then
        completeArea (currentPath st)
      else (st, None)
  end.

(** A sequence of events: the last state and the polygons selected, in
    order. *)
Fixpoint run (st : drawing) (events : list map_event) : drawing * list polygon :=
  match events with
  | [] => (st, [])
  | e :: events' =>
      let (st', out) := on_event st e in
      let (st'', outs) := run st' events' in
      (st'', match out with
             | Some a => a :: outs
             | None => outs
             end)
  end.

End MapDrawing.

(** *** [SimpleMapComponent]: a rectangle dragged or preset *)

Module AreaSelection.

Import GeoJSON.

(** [Math.max] of two numbers: NaN when an argument is NaN, and [+0]
    counts as larger than [-0]. *)
Definition Math_max (a b : float) : float :=
  if is_nan a || is_nan b then nan
  else if (a <? b) then b
  else if (b <? a) then a
  else if JS.is_neg_zero a then b
  else a.

(** [[[south, west], [north, east]]] *)
Definition bounds : Type := latlng * latlng.

(** The bounds computed from two corners, as [mousemove] does. *)
Definition bounds_of (p q : latlng) : bounds :=
  ((JS.Math_min (fst p) (fst q), JS.Math_min (snd p) (snd q)),
   (Math_max (fst p) (fst q), Math_max (snd p) (snd q))).

Definition createGeoJSONFromBounds (start end_ : latlng) : polygon :=
  let minLat := JS.Math_min (fst start) (fst end_) in
  let maxLat := Math_max (fst start) (fst end_) in
  let minLng := JS.Math_min (snd start) (snd end_) in
  let maxLng := Math_max (snd start) (snd end_) in
  {| coordinates :=
       [[Some (minLng, minLat); Some (maxLng, minLat); Some (maxLng, maxLat);
         Some (minLng, maxLat); Some (minLng, minLat)]] |}.

Definition createPresetArea (center : latlng) (size : float) : polygon :=
  let lat := fst center in
  let lng := snd center in
  let halfSize := size / 2 in
  {| coordinates :=
       [[Some (lng - halfSize, lat - halfSize);
         Some (lng + halfSize, lat - halfSize);
         Some (lng + halfSize, lat + halfSize);
         Some (lng - halfSize, lat + halfSize);
         Some (lng - halfSize, lat - halfSize)]] |}.

(** The bounds [handleAreaSelect] reads off a polygon,
    [[[coords[0][1], coords[0][0]], [coords[2][1], coords[2][0]]]];
    [None] when the expression throws. *)
Definition selected_bounds (a : polygon) : option bounds :=
  match coordinates a with
  | [] => None
  | coords :: _ =>
      match nth_error coords 0, nth_error coords 2 with
      | Some (Some c0), Some (Some c2) => Some (flip c0, flip c2)
      | _, _ => None
      end
  end.

(** [selectionMode], which is ['drag'] or ['preset']. *)
Inductive mode := Drag | Preset.

(** The state of [AreaSelector], with the dragging of the map
    ([map.dragging]) it switches off and on. *)
Record selector := {
  isSelecting : bool;
  startPoint : option latlng;
  tempBounds : option bounds;
  map_dragging : bool
}.

Definition at_rest : selector :=
  {| isSelecting := false; startPoint := None; tempBounds := None;
     map_dragging := true |}.

(** The map can be dragged unless a selection is going on; a selection
    going on has its start point; a rectangle is previewed only then. *)
Definition selector_ok (st : selector) : Prop :=
  map_dragging st = negb (isSelecting st) /\
  (isSelecting st = true <-> startPoint st <> None) /\
  (tempBounds st <> None -> isSelecting st = true).

Inductive mouse_event :=
| MouseDown (p : latlng)
| MouseMove (p : latlng)
| MouseUp (p : latlng)
| MouseClick (p : latlng).

(** The handlers of [useMapEvents] under the selection mode [m]: the next
    state and the polygon handed to [onAreaSelect], if any. *)
Definition on_mouse (m : mode) (st : selector) (e : mouse_event)
    : selector * option polygon :=
  match e, m, isSelecting st, startPoint st with
  | MouseDown p, Drag, _, _ =>
      ({| isSelecting := true; startPoint := Some p; tempBounds := None;
          map_dragging := false |}, None)
  | MouseMove p, Drag, true, Some start =>
      ({| isSelecting := isSelecting st; startPoint := startPoint st;
          tempBounds := Some (bounds_of start p);
          map_dragging := map_dragging st |}, None)
  | MouseUp p, Drag, true, Some start =>
      let latDiff := JS.Math_abs (fst start - fst p) in
      let lngDiff := JS.Math_abs (snd start - snd p) in
      ({| isSelecting := false; startPoint := None; tempBounds := None;
          map_dragging := true |},
       if JS.gt latDiff 0.001 && JS.gt lngDiff 0.001
       then Some (createGeoJSONFromBounds start p) else None)
  | MouseClick p, Preset, _, _ => (st, Some (createPresetArea p 0.05))
  | _, _, _, _ => (st, None)
  end.

Fixpoint run (st : selector) (events : list (mode * mouse_event))
    : selector * list polygon :=
  match events with
  | [] => (st, [])
  | (m, e) :: events' =>
      let (st', out) := on_mouse m st e in
      let (st'', outs) := run st' events' in
      (st'', match out with
             | Some a => a :: outs
             | None => outs
             end)
  end.

End AreaSelection.

(** ** The summary shown by the interface

    [ResultPanel] of [App.jsx] shows the [summary] of an answer.  The
    answer is written by [res.json]: a finite number is read back as it
    was (a negative zero as [0]), NaN and the infinities are written as
    [null]. *)

Module ResultPanel.

Definition wire_number (x : float) : option float :=
  if is_finite x then Some (if JS.is_neg_zero x then 0 else x) else None.

(** Is a number, or [null] ([None]), truthy? *)
Definition truthy (v : option float) : bool :=
  match v with
  | Some x => negb (is_nan x || is_zero x)
  | None => false
  end.

(** What a card shows: ['N/A'], or the [toFixed(1)] of a number followed
    by a percent sign. *)
Inductive shown :=
| NotAvailable
| Percent (x : float).

(** [confidence ? `${(confidence * 100).toFixed(1)}%` : 'N/A'] *)
Definition confidence_shown (v : option float) : shown :=
  match v with
  | Some c => if truthy v then Percent (c * 100) else NotAvailable
  | None => NotAvailable
  end.

(** [summary.total_observations || ndvi_timeseries?.length || 0] *)
Definition observations_shown (total_observations length_of_series : nat) : nat :=
  if negb (total_observations =? 0)%nat then total_observations
  else if negb (length_of_series =? 0)%nat then length_of_series
  else 0%nat.

End ResultPanel.

(** * Facts *)

(** ** Exact operations of binary64 *)

Module Binary64Facts.

Import Binary64.
#[local] Open Scope Z_scope.

(** A valid mantissa and exponent: a normal number has 53 digits, a
    subnormal one fewer digits and the least exponent. *)
Lemma bounded_inv (m : positive) (e : Z) :
  bounded prec emax m e = true ->
  (Z.pos (digits2_pos m) = 53 /\ -1074 <= e <= 971) \/
  (Z.pos (digits2_pos m) < 53 /\ e = -1074).
Proof.
  unfold bounded, canonical_mantissa, fexp, emin, prec, emax.
  rewrite andb_true_iff, Z.eqb_eq, Z.leb_le. lia.
Qed.

Lemma SFmul_two (x : spec_float) :
  valid_binary x = true -> SF64mul x SF_two = SFdouble x.
Proof.
  destruct x as [s | s | | s m e]; intros Hv;
    try (cbn; now rewrite ?xorb_false_r).
  unfold SF64mul, SFmul, SF_two, SFdouble. rewrite xorb_false_r.
  rewrite Pos.mul_comm. 
  unfold binary_round_aux, shr_fexp, fexp, emin, prec, emax, Zdigits2, two_52.
  cbn [Pos.mul digits2_pos].
  destruct (bounded_inv m e Hv) as [[Hd He] | [Hd He]].
  - rewrite (proj2 (Z.eqb_eq _ _) Hd).
    replace (Z.max _ _ - (e + -51)) with 52 by lia.
    cbn -[Z.add Z.sub Z.max Z.leb].
    replace (Z.max _ _ - (e + -51 + 52)) with 0 by lia.
    cbn -[Z.add Z.sub Z.max Z.leb].
    now replace (e + -51 + 52) with (e + 1) by lia.
  - destruct (Z.eqb_spec (Z.pos (digits2_pos m)) 53) as [E | _]; [lia|].
    replace (Z.max _ _ - (e + -51)) with 51 by lia.
    cbn -[Z.add Z.sub Z.max Z.leb].
    replace (Z.max _ _ - (e + -51 + 51)) with 0 by lia.
    cbn -[Z.add Z.sub Z.max Z.leb].
    replace (e + -51 + 51) with e by lia.
    now replace (e <=? 1024 - 53) with true by (symmetry; apply Z.leb_le; lia).
Qed.

Lemma div_eucl_exact (a b : Z) : b <> 0 -> Z.div_eucl (a * b) b = (a, 0).
Proof.
  intros Hb. generalize (Z.div_mul a b Hb) (Z.mod_mul a b).
  unfold Z.div, Z.modulo. destruct (Z.div_eucl (a * b) b) as [q r]. 
  intros -> ->; auto.
Qed.


Lemma round_canonical (s : bool) (m : positive) (e : Z) :
  bounded prec emax m e = true ->
  binary_round_aux prec emax s (Z.pos m) e loc_Exact = S754_finite s m e.
Proof.
  intros Hv. pose proof (bounded_inv m e Hv) as Hb.
  unfold binary_round_aux, shr_fexp, fexp, emin, prec, emax, Zdigits2.
  replace (Z.max _ _ - e) with 0 by lia.
  cbn -[Z.add Z.sub Z.max Z.leb].
  replace (Z.max _ _ - e) with 0 by lia.
  cbn -[Z.add Z.sub Z.max Z.leb].
  now replace (e <=? 1024 - 53) with true by (symmetry; apply Z.leb_le; lia).
Qed.

Lemma round_shift_one (s : bool) (m : positive) (e : Z) :
  Z.pos (digits2_pos m) = 53 -> -1074 < e <= 971 ->
  binary_round_aux prec emax s (Z.pos m~0) (e - 1) loc_Exact = S754_finite s m e.
Proof.
  intros Hd He.
  unfold binary_round_aux, shr_fexp, fexp, emin, prec, emax, Zdigits2.
  cbn [digits2_pos].
  replace (Z.max _ _ - (e - 1)) with 1 by lia.
  cbn -[Z.add Z.sub Z.max Z.leb].
  replace (Z.max _ _ - (e - 1 + 1)) with 0 by lia.
  cbn -[Z.add Z.sub Z.max Z.leb].
  replace (e - 1 + 1) with e by lia.
  now replace (e <=? 1024 - 53) with true by (symmetry; apply Z.leb_le; lia).
Qed.

Lemma SFdiv_one (x : spec_float) :
  valid_binary x = true -> SF64div x SF_one = x.
Proof.
  destruct x as [s | s | | s m e]; intros Hv;
    try (cbn; now rewrite ?xorb_false_r).
  unfold SF64div, SFdiv, SF_one, SFdiv_core_binary. rewrite xorb_false_r.
  unfold fexp, emin, prec, emax, Zdigits2, two_52.
  cbn [digits2_pos Pos.succ].
  destruct (bounded_inv m e Hv) as [[Hd He] | [Hd He]];
    [destruct (Z.eq_dec e (-1074)) as [Hee | Hne] |].
  - replace (Z.min _ _) with e by lia.
    replace (e - -52 - e) with 52 by lia.
    rewrite Z.shiftl_mul_pow2 by lia.
    rewrite div_eucl_exact by discriminate.
    change (new_location _ 0) with loc_Exact.
    now apply round_canonical.
  - replace (Z.min _ _) with (e - 1) by lia.
    replace (e - -52 - (e - 1)) with 53 by lia.
    rewrite Z.shiftl_mul_pow2 by lia.
    replace (Z.pos m * 2 ^ 53) with (Z.pos m~0 * 4503599627370496) by lia.
    rewrite div_eucl_exact by discriminate.
    change (new_location _ 0) with loc_Exact.
    apply round_shift_one; lia.
  - replace (Z.min _ _) with e by lia.
    replace (e - -52 - e) with 52 by lia.
    rewrite Z.shiftl_mul_pow2 by lia.
    rewrite div_eucl_exact by discriminate.
    change (new_location _ 0) with loc_Exact.
    now apply round_canonical.
Qed.

(** *** Comparison *)

Lemma SFcompare_swap (x y : spec_float) :
  SFcompare y x = option_map CompOpp (SFcompare x y).
Proof.
  destruct x as [s | s | | s m e], y as [s' | s' | | s' m' e']; cbn;
    try destruct s; try destruct s'; try reflexivity;
    rewrite (Z.compare_antisym e e'); destruct (e ?= e'); cbn;
    rewrite ?Pos.compare_cont_antisym; reflexivity.
Qed.

Lemma SFltb_asym (x y : spec_float) :
  SFltb x y = true -> SFltb y x = false.
Proof.
  unfold SFltb. rewrite (SFcompare_swap x y).
  now destruct (SFcompare x y) as [[]|].
Qed.

Lemma SFltb_leb (x y : spec_float) :
  SFltb x y = true -> SFleb x y = true.
Proof. unfold SFltb, SFleb. now destruct (SFcompare x y) as [[]|]. Qed.


(** Two numbers that are not NaN and not strictly ordered are equal. *)
Lemma SFleb_total (x y : spec_float) :
  SFcompare x y <> None -> SFltb x y = false -> SFleb y x = true.
Proof.
  unfold SFltb, SFleb. rewrite (SFcompare_swap x y).
  now destruct (SFcompare x y) as [[]|].
Qed.

(** Doubling commutes with the comparison against a positive constant
    whose exponent is neither the least nor the greatest. *)
Lemma SFcompare_double (mc : positive) (ec : Z) (x : spec_float) :
  -1074 < ec < 971 -> valid_binary x = true ->
  SFcompare (S754_finite false mc (ec + 1)) (SFdouble x) =
  SFcompare (S754_finite false mc ec) x.
Proof.
  intros Hc Hv. destruct x as [s | s | | s m e]; try reflexivity.
  cbn in Hv. destruct (bounded_inv m e Hv) as [[Hd He] | [Hd He]]; cbn [SFdouble].
  - rewrite (proj2 (Z.eqb_eq _ _) Hd).
    destruct (Z.leb_spec (e + 1) 971) as [Hle | Hgt]; cbn; destruct s; try reflexivity.
    + now rewrite !(Z.add_comm _ 1), Z.add_compare_mono_l.
    + now replace (ec ?= e) with Lt by (symmetry; apply Z.compare_lt_iff; lia).
  - destruct (Z.eqb_spec (Z.pos (digits2_pos m)) 53) as [E | _]; [lia|].
    cbn; destruct s; try reflexivity. subst e.
    replace (ec + 1 ?= -1074) with Gt by (symmetry; apply Z.compare_gt_iff; lia).
    now replace (ec ?= -1074) with Gt by (symmetry; apply Z.compare_gt_iff; lia).
Qed.

Lemma SFdouble_valid (x : spec_float) :
  valid_binary x = true -> valid_binary (SFdouble x) = true.
Proof.
  destruct x as [s | s | | s m e]; try reflexivity.
  cbn [valid_binary]; intros Hv.
  destruct (bounded_inv m e Hv) as [[Hd He] | [Hd He]]; cbn [SFdouble].
  - rewrite (proj2 (Z.eqb_eq _ _) Hd).
    destruct (Z.leb_spec (e + 1) 971) as [Hle | Hgt]; [|reflexivity].
    cbn [valid_binary]. unfold bounded, canonical_mantissa, fexp, emin, prec, emax.
    rewrite andb_true_iff, Z.eqb_eq, Z.leb_le. lia.
  - destruct (Z.eqb_spec (Z.pos (digits2_pos m)) 53) as [E | _]; [lia|].
    cbn [valid_binary]. unfold bounded, canonical_mantissa, fexp, emin, prec, emax.
    cbn [digits2_pos]. rewrite andb_true_iff, Z.eqb_eq, Z.leb_le. lia.
Qed.


(** *** Rounding never invents a NaN *)

Lemma shr_1_nonneg (mrs : shr_record) :
  0 <= shr_m mrs -> 0 <= shr_m (shr_1 mrs).
Proof.
  destruct mrs as [[| p | p] r s]; cbn; intros H; try lia;
    destruct p; cbn; lia.
Qed.

Lemma iter_shr_1_nonneg (p : positive) :
  forall mrs, 0 <= shr_m mrs -> 0 <= shr_m (iter_pos shr_1 p mrs).
Proof.
  induction p as [p IH | p IH |]; intros mrs H; cbn;
    auto using shr_1_nonneg.
Qed.

Lemma shr_fexp_nonneg (m e : Z) (l : location) :
  0 <= m -> 0 <= shr_m (fst (shr_fexp prec emax m e l)).
Proof.
  intros H. unfold shr_fexp, shr.
  assert (H0 : 0 <= shr_m (shr_record_of_loc m l)) by (now destruct l as [|[]]).
  destruct (fexp prec emax (Zdigits2 m + e) - e); cbn [fst]; auto.
  now apply iter_shr_1_nonneg.
Qed.

Lemma round_nearest_even_nonneg (m : Z) (l : location) :
  0 <= m -> 0 <= round_nearest_even m l.
Proof.
  destruct l as [|[]]; cbn; try lia. destruct (Z.even m); lia.
Qed.

Lemma binary_round_aux_not_nan (s : bool) (m e : Z) (l : location) :
  0 <= m -> SF_is_nan (binary_round_aux prec emax s m e l) = false.
Proof.
  intros H. unfold binary_round_aux.
  pose proof (shr_fexp_nonneg m e l H) as H1.
  destruct (shr_fexp prec emax m e l) as [mrs' e']. cbn [fst] in H1.
  pose proof (shr_fexp_nonneg _ e' loc_Exact
                (round_nearest_even_nonneg _ (loc_of_shr_record mrs') H1)) as H2.
  destruct (shr_fexp prec emax _ e' loc_Exact) as [mrs'' e'']. cbn [fst] in H2.
  destruct (shr_m mrs'') as [| p | p]; try reflexivity; [|lia].
  now destruct (e'' <=? emax - prec).
Qed.

Lemma binary_normalize_not_nan (m e : Z) (sz : bool) :
  SF_is_nan (binary_normalize prec emax m e sz) = false.
Proof.
  destruct m as [| p | p]; cbn [binary_normalize]; try reflexivity;
    unfold binary_round; destruct (shl_align _ _ _) as [mz ez];
    now apply binary_round_aux_not_nan.
Qed.

(** The difference of two finite numbers is a number (maybe infinite). *)
Lemma SFsub_finite_not_nan (x y : spec_float) :
  SF_is_finite x = true -> SF_is_finite y = true ->
  SF_is_nan (SF64sub x y) = false.
Proof.
  destruct x as [s | s | | s m e], y as [s' | s' | | s' m' e'];
    try discriminate; intros _ _; unfold SF64sub, SFsub.
  - now destruct s, s'.
  - reflexivity.
  - reflexivity.
  - apply binary_normalize_not_nan.
Qed.

End Binary64Facts.

(** ** The same facts on JavaScript numbers *)

Module FloatFacts.
Import Binary64 Binary64Facts.
#[local] Open Scope float_scope.

Lemma SFeqb_refl (x : spec_float) : SFeqb x x = negb (SF_is_nan x).
Proof.
  destruct x as [s | s | | s m e]; cbn; try reflexivity; try (now destruct s).
  unfold SFeqb; cbn. rewrite Z.compare_refl.
  change (Pos.compare_cont Eq m m) with (Pos.compare m m).
  rewrite Pos.compare_refl. now destruct s.
Qed.

Lemma is_nan_spec (x : float) : is_nan x = SF_is_nan (Prim2SF x).
Proof.
  unfold is_nan. rewrite eqb_spec, SFeqb_refl. apply negb_involutive.
Qed.

Lemma is_finite_spec (x : float) : is_finite x = SF_is_finite (Prim2SF x).
Proof.
  unfold is_finite, is_infinity. rewrite is_nan_spec, eqb_spec, abs_spec.
  change (Prim2SF infinity) with (S754_infinity false).
  destruct (Prim2SF x) as [s | [] | | s m e]; reflexivity.
Qed.

Lemma is_neg_zero_spec (x : float) :
  JS.is_neg_zero x = match Prim2SF x with
                     | S754_zero true => true
                     | _ => false
                     end.
Proof.
  unfold JS.is_neg_zero. rewrite classify_spec.
  unfold SF64classify, SFclassify.
  destruct (Prim2SF x) as [[] | [] | | [] m e]; try reflexivity;
    now destruct (Z.pos (digits2_pos m) =? prec)%Z.
Qed.

(** [0 + x] is [x], except that [0 + -0] is [+0]. *)
Lemma add_zero_l (x : float) : 0 + x = if JS.is_neg_zero x then 0 else x.
Proof.
  apply Prim2SF_inj. rewrite add_spec, is_neg_zero_spec.
  change (Prim2SF 0) with (S754_zero false).
  destruct (Prim2SF x) as [[] | [] | | [] m e] eqn:E; rewrite ?E; reflexivity.
Qed.

Lemma div_one (x : float) : x / 1 = x.
Proof.
  apply Prim2SF_inj. rewrite div_spec.
  apply SFdiv_one, Prim2SF_valid.
Qed.

Lemma abs_zero_sub (x : float) : abs (0 - x) = abs x.
Proof.
  apply Prim2SF_inj. rewrite !abs_spec, sub_spec.
  change (Prim2SF 0) with (S754_zero false).
  now destruct (Prim2SF x) as [[] | [] | | [] m e].
Qed.

Lemma mul_two_spec (x : float) : Prim2SF (x * 2) = SFdouble (Prim2SF x).
Proof. rewrite mul_spec. apply SFmul_two, Prim2SF_valid. Qed.

Lemma ltb_asym (x y : float) : (x <? y) = true -> (y <? x) = false.
Proof. rewrite !ltb_spec. apply SFltb_asym. Qed.

(** The three ways [Math.min(a, 1)] can come out. *)
Lemma Math_min_one_cases (a : float) :
  (is_nan a = true /\ JS.Math_min a 1 = nan) \/
  ((a <? 1) = true /\ JS.Math_min a 1 = a) \/
  ((1 <=? a) = true /\ JS.Math_min a 1 = 1).
Proof.
  unfold JS.Math_min. change (is_nan 1) with false. rewrite orb_false_r.
  destruct (is_nan a) eqn:Hnan; [now left|].
  destruct (a <? 1) eqn:Hlt; [now right; left|].
  right; right.
  assert (Hle : (1 <=? a) = true).
  { rewrite leb_spec. rewrite ltb_spec in Hlt. apply SFleb_total; [|exact Hlt].
    rewrite is_nan_spec in Hnan. change (Prim2SF 1) with SF_one.
    now destruct (Prim2SF a). }
  split; [exact Hle|].
  destruct (1 <? a); [reflexivity|].
  rewrite is_neg_zero_spec. rewrite leb_spec in Hle.
  change (Prim2SF 1) with SF_one in Hle.
  now destruct (Prim2SF a) as [[] | [] | | [] m e].
Qed.

Lemma ltb_double_fifth (x : float) : (0.2 <? x * 2) = (0.1 <? x).
Proof.
  rewrite !ltb_spec, mul_two_spec. unfold SFltb.
  change (Prim2SF 0.2) with (S754_finite false 7205759403792794 (-56 + 1)).
  change (Prim2SF 0.1) with (S754_finite false 7205759403792794 (-56)).
  rewrite SFcompare_double; [reflexivity | lia | apply Prim2SF_valid].
Qed.


Lemma leb_one_ltb_fifth (a : float) : (1 <=? a) = true -> (0.2 <? a) = true.
Proof.
  rewrite leb_spec, ltb_spec.
  change (Prim2SF 1) with (S754_finite false two_52 (-52)).
  change (Prim2SF 0.2) with (S754_finite false 7205759403792794 (-55)).
  destruct (Prim2SF a) as [[] | [] | | [] m e]; try discriminate; try reflexivity.
  unfold SFleb, SFltb, SFcompare.
  destruct (Z.compare_spec (-52) e) as [<- | Hlt | Hgt]; try discriminate;
    intros _.
  - reflexivity.
  - now replace (-55 ?= e)%Z with Lt by (symmetry; apply Z.compare_lt_iff; lia).
Qed.

Lemma ltb_nan_r (c x : float) : is_nan x = true -> (c <? x) = false.
Proof.
  rewrite is_nan_spec, ltb_spec. unfold SFltb.
  destruct (Prim2SF x); try discriminate. now destruct (Prim2SF c).
Qed.

Lemma leb_nan_r (c x : float) : is_nan x = true -> (c <=? x) = false.
Proof.
  rewrite is_nan_spec, leb_spec. unfold SFleb.
  destruct (Prim2SF x); try discriminate. now destruct (Prim2SF c).
Qed.

(** Twice an absolute value that is a number is at least zero. *)
Lemma abs_double_nonneg (x : float) :
  is_nan x = false -> (0 <=? abs x * 2) = true /\ is_nan (abs x * 2) = false.
Proof.
  rewrite !is_nan_spec, leb_spec, mul_two_spec, abs_spec.
  change (Prim2SF 0) with (S754_zero false).
  destruct (Prim2SF x) as [s | s | | s m e]; try discriminate; intros _;
    try (split; reflexivity).
  cbn [SFabs SFdouble].
  destruct (Z.pos (digits2_pos m) =? 53)%Z; [destruct (e + 1 <=? 971)%Z|];
    split; reflexivity.
Qed.

Lemma sub_finite_not_nan (x y : float) :
  is_finite x = true -> is_finite y = true -> is_nan (x - y) = false.
Proof.
  rewrite !is_finite_spec, is_nan_spec, sub_spec. apply SFsub_finite_not_nan.
Qed.

Lemma abs_not_nan (x : float) : is_nan (abs x) = is_nan x.
Proof. rewrite !is_nan_spec, abs_spec. now destruct (Prim2SF x). Qed.

Lemma abs_forget_zero_sign (x : float) :
  abs (if JS.is_neg_zero x then 0 else x) = abs x.
Proof.
  rewrite is_neg_zero_spec. apply Prim2SF_inj.
  destruct (Prim2SF x) as [[] | [] | | [] m e] eqn:E; try reflexivity.
  rewrite !abs_spec, E. reflexivity.
Qed.


Lemma ltb_leb (x y : float) : (x <? y) = true -> (x <=? y) = true.
Proof. rewrite ltb_spec, leb_spec. apply SFltb_leb. Qed.


(** A number between [0] and [1] is finite. *)
Lemma unit_interval_finite (x : float) :
  (0 <=? x) = true -> (x <=? 1) = true -> is_finite x = true.
Proof.
  rewrite !leb_spec, is_finite_spec.
  change (Prim2SF 0) with (S754_zero false).
  now destruct (Prim2SF x) as [[] | [] | | [] m e].
Qed.

End FloatFacts.

(** ** The sort of the series *)

Section SortFacts.

Variable Date_value : string -> option Z.

Lemma insert_item_perm (x : item) (l : list item) :
  Permutation (insert_item Date_value x l) (x :: l).
Proof.
  induction l as [| y l IH]; cbn; [reflexivity|].
  destruct (sort_compare Date_value x y <=? 0)%Z; [reflexivity|].
  rewrite IH. apply perm_swap.
Qed.

Lemma Array_sort_perm (l : list item) : Permutation (Array_sort Date_value l) l.
Proof.
  induction l as [| x l IH]; cbn; [reflexivity|].
  rewrite insert_item_perm. now constructor.
Qed.

Lemma Array_sort_length (l : list item) : length (Array_sort Date_value l) = length l.
Proof. apply Permutation_length, Array_sort_perm. Qed.

(** Entries of the same date string are never ordered strictly. *)
Lemma sort_compare_same_date (x y : item) :
  date x = date y -> sort_compare Date_value x y = 0%Z.
Proof.
  unfold sort_compare, date_diff, time_of. intros ->.
  destruct (Date_value (date y)); [apply Z.sub_diag | reflexivity].
Qed.

(** Stability, date by date: an entry is inserted before the entries of
    its own date. *)
Lemma insert_item_dated (d : string) (x : item) (l : list item) :
  filter (dated d) (insert_item Date_value x l) =
  if dated d x then x :: filter (dated d) l else filter (dated d) l.
Proof.
  induction l as [| y l IH]; cbn; [reflexivity|].
  destruct (Z.leb_spec (sort_compare Date_value x y) 0) as [Hle | Hgt]; [reflexivity|].
  cbn. rewrite IH.
  destruct (dated d x) eqn:Hx; [|reflexivity].
  destruct (dated d y) eqn:Hy; [|reflexivity].
  unfold dated in Hx, Hy. apply String.eqb_eq in Hx, Hy.
  rewrite (sort_compare_same_date x y) in Hgt by congruence. lia.
Qed.

Lemma Array_sort_dated (d : string) (l : list item) :
  filter (dated d) (Array_sort Date_value l) = filter (dated d) l.
Proof.
  induction l as [| x l IH]; cbn; [reflexivity|].
  rewrite insert_item_dated, IH. reflexivity.
Qed.

(** Two entries of distinct valid dates can be inserted in either order. *)
Lemma insert_item_comm (x y : item) (tx ty : Z) (l : list item) :
  Date_value (date x) = Some tx -> Date_value (date y) = Some ty ->
  tx <> ty ->
  insert_item Date_value x (insert_item Date_value y l) = insert_item Date_value y (insert_item Date_value x l).
Proof.
  intros Hx Hy Hne.
  assert (Hxy : sort_compare Date_value x y = (tx - ty)%Z)
    by (unfold sort_compare, date_diff, time_of; now rewrite Hx, Hy).
  assert (Hyx : sort_compare Date_value y x = (ty - tx)%Z)
    by (unfold sort_compare, date_diff, time_of; now rewrite Hx, Hy).
  induction l as [| z l IH]; cbn.
  - rewrite Hxy, Hyx.
    destruct (Z.leb_spec (tx - ty) 0), (Z.leb_spec (ty - tx) 0);
      try reflexivity; lia.
  - assert (Hz : forall t, Date_value (date z) = Some t ->
              sort_compare Date_value x z = (tx - t)%Z /\ sort_compare Date_value y z = (ty - t)%Z)
      by (intros t Ht; unfold sort_compare, date_diff, time_of;
          now rewrite Hx, Hy, Ht).
    assert (Hz' : Date_value (date z) = None ->
              sort_compare Date_value x z = 0%Z /\ sort_compare Date_value y z = 0%Z)
      by (intros Ht; unfold sort_compare, date_diff, time_of;
          now rewrite Hx, Hy, Ht).
    destruct (Z.leb_spec (sort_compare Date_value y z) 0) as [Hyz | Hyz],
             (Z.leb_spec (sort_compare Date_value x z) 0) as [Hxz | Hxz]; cbn;
      rewrite ?Hxy, ?Hyx.
    + destruct (Z.leb_spec (tx - ty) 0), (Z.leb_spec (ty - tx) 0);
        try lia; cbn;
        repeat match goal with
               | |- context [(?a <=? 0)%Z] =>
                   destruct (Z.leb_spec a 0); try lia
               end; reflexivity.
    + destruct (Date_value (date z)) as [t |] eqn:Ht;
        [destruct (Hz t eq_refl) | destruct (Hz' eq_refl)]; try lia.
      destruct (Z.leb_spec (tx - ty) 0); try lia. cbn.
      repeat match goal with
             | |- context [(?a <=? 0)%Z] =>
                 destruct (Z.leb_spec a 0); try lia
             end; reflexivity.
    + destruct (Date_value (date z)) as [t |] eqn:Ht;
        [destruct (Hz t eq_refl) | destruct (Hz' eq_refl)]; try lia.
      destruct (Z.leb_spec (ty - tx) 0); try lia. cbn.
      repeat match goal with
             | |- context [(?a <=? 0)%Z] =>
                 destruct (Z.leb_spec a 0); try lia
             end; reflexivity.
    + repeat match goal with
             | |- context [(?a <=? 0)%Z] =>
                 destruct (Z.leb_spec a 0); try lia
             end. now rewrite IH.
Qed.

End SortFacts.

(** ** The series and its values *)

Section SeriesFacts.

Variable Date_value : string -> option Z.

Lemma valid_items_not_null (features : list feature) :
  Forall (fun it => not_null (ndvi_mean it) = true) (valid_items features).
Proof. apply Forall_forall. intros it Hin. now apply filter_In in Hin. Qed.

Lemma timeseries_perm (features : list feature) :
  Permutation (timeseries Date_value features) (valid_items features).
Proof. apply Array_sort_perm. Qed.

Lemma timeseries_not_null (features : list feature) :
  Forall (fun it => not_null (ndvi_mean it) = true)
         (timeseries Date_value features).
Proof.
  eapply Permutation_Forall; [symmetry; apply timeseries_perm|].
  apply valid_items_not_null.
Qed.

(** Once the [null]s are gone, the second filter removes nothing. *)
Lemma ndviValues_length (ts : list item) :
  Forall (fun it => not_null (ndvi_mean it) = true) ts ->
  length (ndviValues ts) = length ts.
Proof.
  unfold ndviValues.
  induction 1 as [| it ts Hit _ IH]; cbn; [reflexivity|].
  destruct (ndvi_mean it); [cbn; now f_equal | discriminate].
Qed.

Lemma valid_items_perm (l l' : list feature) :
  Permutation l l' -> Permutation (valid_items l) (valid_items l').
Proof.
  unfold valid_items.
  induction 1 as [| x l l' _ IH | x y l | l l' l'' _ IH1 _ IH2]; cbn.
  - reflexivity.
  - destruct (not_null _); [now constructor | exact IH].
  - destruct (not_null (prop_ndvi_mean x)), (not_null (prop_ndvi_mean y));
      try reflexivity. apply perm_swap.
  - now rewrite IH1.
Qed.

(** What a 200 answer is made of. *)
Lemma evaluate_analysis (req : request) (features : list feature)
    (a : geojson) (ts : list item) (s : summary_t) :
  evaluate Date_value req features = Analysis a ts s ->
  ts = timeseries Date_value features /\ ts <> [] /\ a = aoi req /\
  s = summary_of req ts.
Proof.
  unfold evaluate. destruct (timeseries Date_value features) as [| it l];
    [discriminate|].
  intros H. injection H as <- <- <-. repeat split. discriminate.
Qed.

(** With a valid sample in the input the answer is an assessment. *)
Lemma evaluate_total (req : request) (features : list feature) :
  valid_items features <> [] ->
  timeseries Date_value features <> [] /\
  evaluate Date_value req features =
  Analysis (aoi req) (timeseries Date_value features)
    (summary_of req (timeseries Date_value features)).
Proof.
  intros Hne.
  assert (Hts : timeseries Date_value features <> []).
  { intros E. apply Hne. apply length_zero_iff_nil.
    rewrite <- (Array_sort_length Date_value). fold (timeseries Date_value features).
    now rewrite E. }
  split; [exact Hts|]. unfold evaluate.
  now destruct (timeseries Date_value features).
Qed.

Lemma evaluate_no_data_iff (req : request) (features : list feature) :
  evaluate Date_value req features = NoData <-> valid_items features = [].
Proof.
  split.
  - intros H. destruct (valid_items features) as [| it l] eqn:E; [reflexivity|].
    destruct (evaluate_total req features) as (_ & He); [now rewrite E|].
    rewrite He in H. discriminate H.
  - intros E. unfold evaluate, timeseries. now rewrite E.
Qed.

(** The handler runs the evaluation when the Earth Engine client is ready
    and the fetch has succeeded. *)
Lemma handler_ready (st : gee_state) (req : request) (features : list feature) :
  isGEEReady st = true ->
  ndvi_timeseries_handler Date_value st req (Some features) =
  evaluate Date_value req features.
Proof. unfold ndvi_timeseries_handler. now intros ->. Qed.

End SeriesFacts.

(** ** The two halves *)

Lemma of_length_1 : JS.of_length 1 = 1.
Proof. reflexivity. Qed.

Lemma halves_app (values : list float) :
  (firstHalf values ++ secondHalf values)%list = values.
Proof. apply firstn_skipn. Qed.

Lemma firstHalf_length (values : list float) :
  length (firstHalf values) = (length values / 2)%nat.
Proof.
  unfold firstHalf, midPoint, JS.floor_half. rewrite length_firstn.
  apply Nat.min_l. apply Nat.Div0.div_le_upper_bound. lia.
Qed.

Lemma secondHalf_length (values : list float) :
  length (secondHalf values) = (length values / 2 + length values mod 2)%nat.
Proof.
  unfold secondHalf, midPoint, JS.floor_half. rewrite length_skipn.
  pose proof (Nat.div_mod_eq (length values) 2). lia.
Qed.

(** The mean of a segment that is not empty is its arithmetic mean. *)
Lemma mean_or_zero_arithmetic (l : list float) :
  l <> [] -> mean_or_zero l = arithmetic_mean l.
Proof. now destruct l. Qed.

Lemma length_zero_nil {A : Type} (l : list A) : length l = 0%nat -> l = [].
Proof. now destruct l. Qed.

Lemma firstHalfMean_spec (values : list float) :
  firstHalfMean values =
  if (length values <? 2)%nat then 0 else arithmetic_mean (firstHalf values).
Proof.
  unfold firstHalfMean. pose proof (firstHalf_length values) as Hl.
  destruct (Nat.ltb_spec (length values) 2) as [Hlt | Hge].
  - replace (length values / 2)%nat with 0%nat in Hl
      by (symmetry; apply Nat.div_small; exact Hlt).
    now rewrite (length_zero_nil _ Hl).
  - apply mean_or_zero_arithmetic. intros E. rewrite E in Hl.
    change (@length float []) with 0%nat in Hl.
    assert (1 <= length values / 2)%nat
      by (apply Nat.div_le_lower_bound; lia).
    lia.
Qed.

Lemma secondHalfMean_spec (values : list float) :
  secondHalfMean values =
  if (length values =? 0)%nat then 0 else arithmetic_mean (secondHalf values).
Proof.
  unfold secondHalfMean. pose proof (secondHalf_length values) as Hl.
  destruct (Nat.eqb_spec (length values) 0) as [Hz | Hnz].
  - rewrite Hz in Hl. now rewrite (length_zero_nil _ Hl).
  - apply mean_or_zero_arithmetic. intros E. rewrite E in Hl.
    change (@length float []) with 0%nat in Hl.
    pose proof (Nat.div_mod_eq (length values) 2). lia.
Qed.

(** * Properties of the endpoint *)

Section SingleSample.

Variable Date_value : string -> option Z.

Import FloatFacts.

(** The statistics of a series of one value. *)
Lemma single_value_mean (v : float) :
  meanNdvi [v] = if JS.is_neg_zero v then 0 else v.
Proof.
  unfold meanNdvi, mean_or_zero, JS.sum. cbn [fold_left length].
  now rewrite of_length_1, div_one, add_zero_l.
Qed.

Lemma single_value_delta (v : float) : raw_delta [v] = JS.Math_abs v.
Proof.
  unfold raw_delta, firstHalfMean, secondHalfMean, firstHalf, secondHalf.
  change (midPoint [v]) with 0%nat. cbn [firstn skipn].
  change (mean_or_zero [v]) with (meanNdvi [v]). rewrite single_value_mean.
  change (mean_or_zero []) with 0. unfold JS.Math_abs.
  now rewrite abs_zero_sub, abs_forget_zero_sign.
Qed.

(** C1, as amended: an input with exactly one valid sample, of value [v],
    is answered by an assessment, not by an error: its mean is [v] (a
    negative zero comes out as [0]) and it counts one observation; the
    sample is compared with an empty first half of mean [0], so the flag
    is [|v| > 0.1] and the confidence is [min(2 |v|, 1)]. *)
Theorem single_sample_assessment (req : request) (features : list feature)
    (d : string) (v : float) :
  valid_items features = [{| date := d; ndvi_mean := Some v |}] ->
  evaluate Date_value req features =
  Analysis (aoi req) [{| date := d; ndvi_mean := Some v |}]
    {| mean := if JS.is_neg_zero v then 0 else v;
       change_detected := JS.gt (JS.Math_abs v) 0.1;
       confidence := JS.Math_min (JS.Math_abs v * 2) 1;
       total_observations := 1;
       date_range := {| range_start := startDate req;
                        range_end := endDate req |} |}.
Proof.
  intros Hv. unfold evaluate, timeseries. rewrite Hv.
  cbn [Array_sort insert_item]. unfold summary_of.
  change (ndviValues [{| date := d; ndvi_mean := Some v |}]) with [v].
  unfold changeDetected, confidence_of.
  now rewrite single_value_mean, single_value_delta.
Qed.

End SingleSample.

Lemma single_sample_assessment_witness :
  evaluate IsoDate.parse Samples.req Samples.single =
  Analysis "{}" [Samples.entry "2024-03-01" 0.5] (Samples.summary 0.5 true 1 1).
Proof.
  exact (single_sample_assessment IsoDate.parse Samples.req Samples.single
           "2024-03-01" 0.5 eq_refl).
Defined.

(** C1, as stated, fails on the sample of value [0.5]: the answer flags a
    change with confidence [1], where the specification has no change and
    confidence [0]. *)
Lemma single_sample_counterexample :
  evaluate IsoDate.parse Samples.req Samples.single =
  Analysis "{}" [Samples.entry "2024-03-01" 0.5] (Samples.summary 0.5 true 1 1)
  /\ ~ (exists a ts s,
          evaluate IsoDate.parse Samples.req Samples.single = Analysis a ts s /\
          mean s = 0.5 /\ change_detected s = false /\ confidence s = 0 /\
          total_observations s = 1%nat).
Proof.
  split; [vm_compute; reflexivity|].
  intros (a & ts & s & H & _ & Hc & _).
  vm_compute in H. injection H as _ _ <-. discriminate Hc.
Qed.

Section ChangeHeuristic.

Variable Date_value : string -> option Z.

Import FloatFacts.



Lemma flag_matches_confidence (r : float) :
  (0.2 <? JS.Math_min (r * 2) 1) = (0.1 <? r).
Proof.
  rewrite <- ltb_double_fifth.
  destruct (Math_min_one_cases (r * 2)) as [[Hn ->] | [[_ ->] | [Hle ->]]].
  - now rewrite (ltb_nan_r 0.2 _ Hn).
  - reflexivity.
  - now rewrite (leb_one_ltb_fifth _ Hle).
Qed.



(** C9: for an input with at least one valid sample the answer is an
    assessment whose flag is raised exactly when its confidence is
    strictly greater than [0.2]. *)
Theorem flag_iff_confidence (req : request) (features : list feature) :
  valid_items features <> [] ->
  exists (ts : list item) (s : summary_t),
    evaluate Date_value req features = Analysis (aoi req) ts s /\
    (change_detected s = true <-> (0.2 <? confidence s) = true).
Proof.
  intros Hne. destruct (evaluate_total Date_value req features Hne) as (_ & He).
  eexists _, _. split; [exact He|].
  cbn [change_detected confidence summary_of].
  unfold changeDetected, confidence_of, JS.gt, threshold, scale_factor.
  now rewrite flag_matches_confidence.
Qed.

End ChangeHeuristic.



Lemma flag_iff_confidence_witness :
  exists (ts : list item) (s : summary_t),
    evaluate IsoDate.parse Samples.req Samples.four = Analysis "{}" ts s /\
    (change_detected s = true <-> (0.2 <? confidence s) = true).
Proof.
  apply (flag_iff_confidence IsoDate.parse Samples.req Samples.four).
  discriminate.
Defined.

Section Series.

Variable Date_value : string -> option Z.

(** C4: the values are split at index [floor(n / 2)]: the first segment
    is the first [floor(n / 2)] values and the second the rest, one value
    longer when [n] is odd; the mean of a segment is the arithmetic mean
    of its values; and the series [0.1, 0.1, 0.5, 0.5] has segment means
    [0.1] and [0.5], raw delta [0.4], a change flagged, confidence [0.8]
    and mean [0.3]. *)
Theorem midpoint_split :
  (forall values : list float,
      let n := length values in
      firstHalf values = firstn (n / 2) values /\
      secondHalf values = skipn (n / 2) values /\
      (firstHalf values ++ secondHalf values)%list = values /\
      length (firstHalf values) = (n / 2)%nat /\
      length (secondHalf values) = (n / 2 + n mod 2)%nat /\
      firstHalfMean values =
        (if (n <? 2)%nat then 0 else arithmetic_mean (firstHalf values)) /\
      secondHalfMean values =
        (if (n =? 0)%nat then 0 else arithmetic_mean (secondHalf values)))
  /\
  (let values := ndviValues (timeseries IsoDate.parse Samples.four) in
   values = [0.1; 0.1; 0.5; 0.5] /\
   firstHalf values = [0.1; 0.1] /\ secondHalf values = [0.5; 0.5] /\
   firstHalfMean values = 0.1 /\ secondHalfMean values = 0.5 /\
   raw_delta values = 0.4 /\ threshold = 0.1 /\ scale_factor = 2 /\
   evaluate IsoDate.parse Samples.req Samples.four =
   Analysis "{}"
     [Samples.entry "2024-01-01" 0.1; Samples.entry "2024-02-01" 0.1;
      Samples.entry "2024-03-01" 0.5; Samples.entry "2024-04-01" 0.5]
     (Samples.summary 0.3 true 0.8 4)).
Proof.
  split.
  - intros values n. repeat split.
    + apply halves_app.
    + apply firstHalf_length.
    + apply secondHalf_length.
    + apply firstHalfMean_spec.
    + apply secondHalfMean_spec.
  - repeat split; vm_compute; reflexivity.
Qed.

(** C5: when no valid sample remains (every value is [null], or there is
    no sample at all), the answer is the no-data error and no
    assessment. *)
Theorem no_valid_sample_no_data (req : request) (features : list feature) :
  Forall (fun f => prop_ndvi_mean f = None) features ->
  evaluate Date_value req features = NoData /\
  forall a ts s, evaluate Date_value req features <> Analysis a ts s.
Proof.
  intros H.
  assert (He : evaluate Date_value req features = NoData).
  { apply evaluate_no_data_iff. unfold valid_items.
    induction H as [| f l Hf _ IH]; cbn; [reflexivity|]. now rewrite Hf. }
  split; [exact He|]. intros a ts s. rewrite He. discriminate.
Qed.

(** C6, as amended: when the dates of the valid samples are all valid
    (so that the comparator orders them consistently and the sorted
    series is the one every stable sort returns), samples are never
    merged. The series is a permutation of the valid samples, and for
    each date the samples of that date stand in the series as they stood
    in the input, in the same order; the two samples [0.2] and [0.4] of
    the first of March 2024 are both kept, in this order. *)
Theorem duplicate_dates_kept (features : list feature) :
  Forall (fun it => time_of Date_value it <> None) (valid_items features) ->
  Permutation (timeseries Date_value features) (valid_items features) /\
  length (timeseries Date_value features) = length (valid_items features) /\
  (forall d : string,
      filter (dated d) (timeseries Date_value features) =
      filter (dated d) (valid_items features)) /\
  timeseries IsoDate.parse Samples.same_day =
  [Samples.entry "2024-03-01" 0.2; Samples.entry "2024-03-01" 0.4].
Proof.
  intros _. split; [apply timeseries_perm|]. split; [|split].
  - apply Array_sort_length.
  - intros d. apply Array_sort_dated.
  - vm_compute. reflexivity.
Qed.

(** C7, as amended: for an input with at least one valid sample the
    answer is an assessment whose date range is the pair ([startDate],
    [endDate]) of the request, passed on as it came, and whose count of
    observations is the number of valid samples, which are the values the
    statistics are computed from. *)
Theorem summary_counts_and_range (req : request) (features : list feature) :
  valid_items features <> [] ->
  exists (ts : list item) (s : summary_t),
    evaluate Date_value req features = Analysis (aoi req) ts s /\
    date_range s = {| range_start := startDate req; range_end := endDate req |} /\
    total_observations s = length (ndviValues ts) /\
    total_observations s = length (valid_items features).
Proof.
  intros Hne. destruct (evaluate_total Date_value req features Hne) as (_ & He).
  eexists _, _. split; [exact He|].
  cbn [date_range total_observations summary_of]. repeat split.
  - symmetry. apply ndviValues_length, timeseries_not_null.
  - apply Array_sort_length.
Qed.

End Series.

Lemma no_valid_sample_no_data_witness :
  evaluate IsoDate.parse Samples.req Samples.all_null = NoData /\
  forall a ts s,
    evaluate IsoDate.parse Samples.req Samples.all_null <> Analysis a ts s.
Proof.
  apply (no_valid_sample_no_data IsoDate.parse Samples.req Samples.all_null).
  repeat constructor.
Defined.

Lemma duplicate_dates_kept_witness :
  Permutation (timeseries IsoDate.parse Samples.same_day)
              (valid_items Samples.same_day) /\
  length (timeseries IsoDate.parse Samples.same_day) =
  length (valid_items Samples.same_day) /\
  (forall d : string,
      filter (dated d) (timeseries IsoDate.parse Samples.same_day) =
      filter (dated d) (valid_items Samples.same_day)) /\
  timeseries IsoDate.parse Samples.same_day =
  [Samples.entry "2024-03-01" 0.2; Samples.entry "2024-03-01" 0.4].
Proof.
  apply (duplicate_dates_kept IsoDate.parse Samples.same_day).
  repeat constructor; discriminate.
Defined.

(** C6, as stated, fails on two samples of one day: the series keeps two
    entries, not one entry of value [0.3]. *)
Lemma duplicate_dates_counterexample :
  timeseries IsoDate.parse Samples.same_day =
  [Samples.entry "2024-03-01" 0.2; Samples.entry "2024-03-01" 0.4]
  /\ timeseries IsoDate.parse Samples.same_day <> [Samples.entry "2024-03-01" 0.3].
Proof.
  split; [vm_compute; reflexivity|].
  intros H. vm_compute in H. discriminate H.
Qed.

Lemma summary_counts_and_range_witness :
  exists (ts : list item) (s : summary_t),
    evaluate IsoDate.parse Samples.req Samples.single = Analysis "{}" ts s /\
    date_range s = {| range_start := "2024-01-01"; range_end := "2024-12-31" |} /\
    total_observations s = length (ndviValues ts) /\
    total_observations s = 1%nat.
Proof.
  apply (summary_counts_and_range IsoDate.parse Samples.req Samples.single).
  discriminate.
Defined.

(** C7, as stated, fails on a request for the year 2024 with one sample on
    the first of March: the date range of the answer is the year asked
    for, not the dates of the series. *)
Lemma date_range_counterexample :
  evaluate IsoDate.parse Samples.req Samples.single =
  Analysis "{}" [Samples.entry "2024-03-01" 0.5] (Samples.summary 0.5 true 1 1)
  /\ series_date_range [Samples.entry "2024-03-01" 0.5] =
     Some {| range_start := "2024-03-01"; range_end := "2024-03-01" |}
  /\ Some (date_range (Samples.summary 0.5 true 1 1)) <>
     series_date_range [Samples.entry "2024-03-01" 0.5].
Proof.
  repeat split; try (vm_compute; reflexivity).
  intros H. vm_compute in H. discriminate H.
Qed.

Section OrderOfInput.

Variable Date_value : string -> option Z.

(** Entries of valid, pairwise distinct dates sort to the same series in
    whatever order they come. *)
Lemma Array_sort_permuted (l l' : list item) :
  Permutation l l' ->
  Forall (fun it => time_of Date_value it <> None) l ->
  NoDup (map (time_of Date_value) l) ->
  Array_sort Date_value l = Array_sort Date_value l'.
Proof.
  induction 1 as [| x l l' Hp IH | x y l | l l' l'' Hp1 IH1 Hp2 IH2];
    intros Hv Hd.
  - reflexivity.
  - cbn. f_equal. apply IH.
    + now apply Forall_inv_tail in Hv.
    + now apply NoDup_cons_iff in Hd.
  - cbn. apply Forall_cons_iff in Hv as (Hy & Hv).
    apply Forall_cons_iff in Hv as (Hx & _).
    cbn in Hd. apply NoDup_cons_iff in Hd as (Hxy & _).
    unfold time_of in Hx, Hy, Hxy.
    destruct (Date_value (date x)) as [tx |] eqn:Ex; [|contradiction].
    destruct (Date_value (date y)) as [ty |] eqn:Ey; [|contradiction].
    apply (insert_item_comm Date_value y x ty tx); auto.
    intros E. apply Hxy. left. now rewrite E.
  - rewrite IH1 by assumption. apply IH2.
    + eapply Permutation_Forall; eassumption.
    + eapply Permutation_NoDup; [|exact Hd]. now apply Permutation_map.
Qed.

(** C8, as amended: when the valid samples have valid, pairwise distinct
    dates, the samples can be given in any order: every permutation of
    the input has the same answer. *)
Theorem order_independent_distinct_dates (req : request)
    (features features' : list feature) :
  Permutation features features' ->
  Forall (fun it => time_of Date_value it <> None) (valid_items features) ->
  NoDup (map (time_of Date_value) (valid_items features)) ->
  evaluate Date_value req features' = evaluate Date_value req features.
Proof.
  intros Hp Hv Hd. unfold evaluate, timeseries.
  rewrite (Array_sort_permuted (valid_items features) (valid_items features'));
    auto using valid_items_perm.
Qed.

End OrderOfInput.

Lemma order_independent_distinct_dates_witness :
  evaluate IsoDate.parse Samples.req
    [Samples.sample "2024-03-02" (Some 0.1); Samples.sample "2024-03-01" (Some 0)]
  = evaluate IsoDate.parse Samples.req Samples.boundary.
Proof.
  apply (order_independent_distinct_dates IsoDate.parse Samples.req
           Samples.boundary).
  - apply perm_swap.
  - repeat constructor; discriminate.
  - repeat constructor; cbn; intuition discriminate.
Defined.

(** C8, as stated, fails on three samples of one day: given as
    [0, 0, 0.5] the confidence is [0.5], given as [0.5, 0, 0] it is [1]. *)
Lemma order_of_input_counterexample :
  Permutation Samples.three_a Samples.three_b
  /\ evaluate IsoDate.parse Samples.req Samples.three_a =
     Analysis "{}"
       [Samples.entry "2024-03-01" 0; Samples.entry "2024-03-01" 0;
        Samples.entry "2024-03-01" 0.5]
       (Samples.summary 0.16666666666666666 true 0.5 3)
  /\ evaluate IsoDate.parse Samples.req Samples.three_b =
     Analysis "{}"
       [Samples.entry "2024-03-01" 0.5; Samples.entry "2024-03-01" 0;
        Samples.entry "2024-03-01" 0]
       (Samples.summary 0.16666666666666666 true 1 3)
  /\ evaluate IsoDate.parse Samples.req Samples.three_b <>
     evaluate IsoDate.parse Samples.req Samples.three_a.
Proof.
  split; [|split; [|split]]; try (vm_compute; reflexivity).
  - apply (Permutation_app_comm
             [Samples.sample "2024-03-01" (Some 0); Samples.sample "2024-03-01" (Some 0)]
             [Samples.sample "2024-03-01" (Some 0.5)]).
  - intros H. vm_compute in H. discriminate H.
Qed.

Section EmptySegment.

Import FloatFacts.

Lemma confidence_in_unit_interval (r : float) :
  is_nan r = false ->
  (0 <=? JS.Math_min (abs r * 2) 1) = true /\
  (JS.Math_min (abs r * 2) 1 <=? 1) = true.
Proof.
  intros Hr. destruct (abs_double_nonneg r Hr) as (Hpos & Hnan).
  destruct (Math_min_one_cases (abs r * 2))
    as [[Hn _] | [[Hlt ->] | [_ ->]]].
  - congruence.
  - split; [exact Hpos | now apply ltb_leb].
  - split; reflexivity.
Qed.

Lemma finite_means_finite_confidence (values : list float) :
  is_finite (firstHalfMean values) = true ->
  is_finite (secondHalfMean values) = true ->
  (0 <=? confidence_of values) = true /\
  (confidence_of values <=? 1) = true.
Proof.
  intros H1 H2. unfold confidence_of, raw_delta, JS.Math_abs, scale_factor.
  apply confidence_in_unit_interval. now apply sub_finite_not_nan.
Qed.

Lemma is_finite_forget_zero_sign (v : float) :
  is_finite (if JS.is_neg_zero v then 0 else v) = is_finite v.
Proof.
  rewrite is_neg_zero_spec, (is_finite_spec v).
  destruct (Prim2SF v) as [[] | [] | | [] m e] eqn:E; try reflexivity;
    now rewrite is_finite_spec, E.
Qed.

(** C10, as amended: in a series of at least one value, a segment is
    empty exactly when there is a single value, and it is the first
    one; the mean of an empty segment is [0], so that the single value
    is compared through [|0 - second mean|] with the threshold; and
    whenever both segment means are finite (as they are for a single
    finite value) the confidence is a finite number between [0] and
    [1]. *)
Theorem empty_segment_mean_zero (values : list float) :
  values <> [] ->
  mean_or_zero [] = 0 /\
  (firstHalf values = [] <-> length values = 1%nat) /\
  secondHalf values <> [] /\
  (length values = 1%nat ->
     firstHalfMean values = 0 /\
     changeDetected values =
       JS.gt (JS.Math_abs (0 - secondHalfMean values)) threshold /\
     confidence_of values =
       JS.Math_min (JS.Math_abs (0 - secondHalfMean values) * scale_factor) 1) /\
  (forall v, values = [v] -> is_finite v = true ->
     is_finite (confidence_of values) = true) /\
  (is_finite (firstHalfMean values) = true ->
   is_finite (secondHalfMean values) = true ->
     is_finite (confidence_of values) = true /\
     (0 <=? confidence_of values) = true /\
     (confidence_of values <=? 1) = true).
Proof.
  intros Hne.
  assert (Hlen : (1 <= length values)%nat)
    by (destruct values; [contradiction | cbn; lia]).
  assert (Hsingle : length values = 1%nat -> firstHalfMean values = 0).
  { intros H1. rewrite firstHalfMean_spec, H1. reflexivity. }
  assert (Hfin : is_finite (firstHalfMean values) = true ->
                 is_finite (secondHalfMean values) = true ->
                 is_finite (confidence_of values) = true /\
                 (0 <=? confidence_of values) = true /\
                 (confidence_of values <=? 1) = true).
  { intros H1 H2.
    destruct (finite_means_finite_confidence values H1 H2) as (Ha & Hb).
    auto using unit_interval_finite. }
  split; [reflexivity|]. split; [|split; [|split; [|split]]].
  - pose proof (firstHalf_length values) as Hl. split; intros H.
    + rewrite H in Hl. change (@length float []) with 0%nat in Hl.
      destruct (Nat.le_gt_cases 2 (length values)) as [H2 | H2]; [|lia].
      assert (1 <= length values / 2)%nat
        by (apply Nat.div_le_lower_bound; lia).
      lia.
    + apply length_zero_nil. now rewrite Hl, H.
  - intros E. pose proof (secondHalf_length values) as Hl. rewrite E in Hl.
    change (@length float []) with 0%nat in Hl.
    pose proof (Nat.div_mod_eq (length values) 2). lia.
  - intros H1. split; [now apply Hsingle|].
    unfold changeDetected, confidence_of, raw_delta.
    now rewrite (Hsingle H1).
  - intros v -> Hv. apply Hfin.
    + reflexivity.
    + change (secondHalfMean [v]) with (meanNdvi [v]).
      unfold meanNdvi, mean_or_zero, JS.sum. cbn [fold_left length].
      now rewrite of_length_1, div_one, add_zero_l,
        is_finite_forget_zero_sign.
  - exact Hfin.
Qed.

End EmptySegment.

Lemma empty_segment_mean_zero_witness :
  is_finite (confidence_of [0.5]) = true.
Proof.
  apply (empty_segment_mean_zero [0.5]) with (v := 0.5).
  - discriminate.
  - reflexivity.
  - reflexivity.
Defined.

(** C10, as stated, fails on four values of [1e308]: each half sums to
    infinity, the difference of the means is NaN and so is the
    confidence. *)
Lemma finite_confidence_counterexample :
  evaluate IsoDate.parse Samples.req Samples.huge =
  Analysis "{}"
    [Samples.entry "2024-03-01" 1e308; Samples.entry "2024-03-02" 1e308;
     Samples.entry "2024-03-03" 1e308; Samples.entry "2024-03-04" 1e308]
    (Samples.summary infinity false nan 4)
  /\ is_finite (confidence (Samples.summary infinity false nan 4)) = false.
Proof.
  split; vm_compute; reflexivity.
Qed.

(** * The setup of the client and the two endpoints *)

Section SetupFacts.

Import Setup.

Variable env : nat -> outcome.

(** The recursion of [initializeGEE] is the one of the source: another
    attempt is made when the catch block is reached with
    [retryCount < maxRetries]. *)
Lemma initializeGEE_unfold (retryCount : nat) (st : gee_state) :
  initializeGEE env retryCount st =
  let seen := attempt_states (env retryCount) st in
  if caught (env retryCount) then
    if (retryCount <? maxRetries)%nat then
      let rest := initializeGEE env (S retryCount) (last seen st) in
      {| trace := (seen ++ trace rest)%list;
         attempts := S (attempts rest);
         gave_up := gave_up rest |}
    else {| trace := seen; attempts := 1; gave_up := true |}
  else {| trace := seen; attempts := 1; gave_up := false |}.
Proof.
  unfold initializeGEE.
  destruct (Nat.ltb_spec retryCount maxRetries) as [Hlt | Hge].
  - replace (maxRetries - retryCount)%nat
      with (S (maxRetries - S retryCount)) by lia.
    reflexivity.
  - replace (maxRetries - retryCount)%nat with 0%nat by lia. reflexivity.
Qed.

(** Attempt number [n] (from [0]) is made exactly when the attempts
    before it all reached the catch block and [n] is within the bound. *)
Lemma attempts_from_spec (remaining : nat) :
  forall (k : nat) (st : gee_state) (n : nat),
    (n < attempts (initializeGEE_from remaining env k st))%nat <->
    (n <= remaining)%nat /\
    forall j, (j < n)%nat -> caught (env (k + j)) = true.
Proof.
  induction remaining as [| r IH]; intros k st n; cbn.
  - destruct (caught (env k)) eqn:Hc; cbn; split.
    + intros Hn. assert (n = 0)%nat as -> by lia. split; [lia|]. intros j Hj. lia.
    + intros [Hn _]. lia.
    + intros Hn. assert (n = 0)%nat as -> by lia. split; [lia|]. intros j Hj. lia.
    + intros [Hn Hall]. destruct n as [| n]; [lia|]. lia.
  - destruct (caught (env k)) eqn:Hc; cbn.
    + destruct n as [| n].
      * split; [intros _; split; [lia | intros j Hj; lia] | intros _; lia].
      * rewrite <- Nat.succ_lt_mono, IH. split; intros [Hn Hall]; (split; [lia|]).
        -- intros [| j] Hj; [now rewrite Nat.add_0_r|].
           rewrite <- Nat.add_succ_comm. apply Hall. lia.
        -- intros j Hj. rewrite Nat.add_succ_comm. apply Hall. lia.
    + split.
      * intros Hn. assert (n = 0)%nat as -> by lia. split; [lia|]. intros j Hj. lia.
      * intros [Hn Hall]. destruct n as [| n]; [lia|].
        specialize (Hall 0%nat ltac:(lia)). rewrite Nat.add_0_r in Hall. congruence.
Qed.

Lemma gave_up_from_spec (remaining : nat) :
  forall (k : nat) (st : gee_state),
    gave_up (initializeGEE_from remaining env k st) = true <->
    forall j, (j <= remaining)%nat -> caught (env (k + j)) = true.
Proof.
  induction remaining as [| r IH]; intros k st; cbn.
  - destruct (caught (env k)) eqn:Hc; cbn; split; try reflexivity.
    + intros _ j Hj. assert (j = 0)%nat as -> by lia. now rewrite Nat.add_0_r.
    + discriminate.
    + intros Hall. specialize (Hall 0%nat ltac:(lia)).
      rewrite Nat.add_0_r in Hall. congruence.
  - destruct (caught (env k)) eqn:Hc; cbn.
    + rewrite IH. split; intros Hall j Hj.
      * destruct j as [| j]; [now rewrite Nat.add_0_r|].
        rewrite <- Nat.add_succ_comm. apply Hall. lia.
      * rewrite Nat.add_succ_comm. apply Hall. lia.
    + split; [discriminate|]. intros Hall. specialize (Hall 0%nat ltac:(lia)).
      rewrite Nat.add_0_r in Hall. congruence.
Qed.

(** X1: the setup makes at least one attempt and at most four; attempt
    number [n] (from [0]) is made exactly when [n <= 3] and every attempt
    before it ended in a failure callback; and the setup reports that it
    failed after all retries exactly when the four attempts all ended so,
    having then made four attempts. *)
Theorem setup_attempts :
  (1 <= attempts (startup env) <= 4)%nat /\
  (forall n, (n < attempts (startup env))%nat <->
             (n <= 3)%nat /\ forall j, (j < n)%nat -> caught (env j) = true) /\
  (gave_up (startup env) = true <->
   forall j, (j <= 3)%nat -> caught (env j) = true) /\
  (gave_up (startup env) = true -> attempts (startup env) = 4%nat).
Proof.
  assert (Hn : forall n, (n < attempts (startup env))%nat <->
             (n <= 3)%nat /\ forall j, (j < n)%nat -> caught (env j) = true).
  { intros n. unfold startup, initializeGEE.
    apply (attempts_from_spec (maxRetries - 0) 0 at_start n). }
  assert (Hg : gave_up (startup env) = true <->
               forall j, (j <= 3)%nat -> caught (env j) = true).
  { unfold startup, initializeGEE.
    apply (gave_up_from_spec (maxRetries - 0) 0 at_start). }
  assert (H1 : (1 <= attempts (startup env) <= 4)%nat).
  { split.
    - apply (proj2 (Hn 0%nat)). split; [lia|]. intros j Hj. lia.
    - destruct (Nat.le_gt_cases (attempts (startup env)) 4) as [H | H]; [exact H|].
      apply (proj1 (Hn 4%nat)) in H. lia. }
  split; [exact H1|]. split; [exact Hn|]. split; [exact Hg|].
  intros Hgave. assert (3 < attempts (startup env))%nat; [|lia].
  apply Hn. split; [lia|]. intros j Hj. apply Hg; [exact Hgave | lia].
Qed.

End SetupFacts.

Section SetupStates.

Import Setup.

Variable env : nat -> outcome.

Lemma last_cons_default {A : Type} (l : list A) :
  forall x d : A, last (x :: l) d = last l x.
Proof.
  induction l as [| y l IH]; intros x d; [reflexivity|].
  change (last (x :: y :: l) d) with (last (y :: l) d).
  now rewrite (IH y d), (IH y x).
Qed.

Lemma last_app_default {A : Type} (l1 l2 : list A) :
  forall d : A, last (l1 ++ l2)%list d = last l2 (last l1 d).
Proof.
  induction l1 as [| x l1 IH]; intros d; [reflexivity|].
  change ((x :: l1) ++ l2)%list with (x :: (l1 ++ l2))%list.
  now rewrite !last_cons_default, IH.
Qed.

Lemma flags_kept_refl (a : gee_state) : flags_kept a a.
Proof. now split. Qed.

Lemma flags_kept_trans (a b c : gee_state) :
  flags_kept a b -> flags_kept b c -> flags_kept a c.
Proof. unfold flags_kept. tauto. Qed.

Lemma flags_kept_cons (x a : gee_state) (l : list gee_state) :
  flags_kept x a -> StronglySorted flags_kept (a :: l) ->
  StronglySorted flags_kept (x :: a :: l).
Proof.
  intros Hxa Hs. constructor; [exact Hs|].
  constructor; [exact Hxa|].
  apply StronglySorted_inv in Hs as [_ Hall].
  eapply Forall_impl; [|exact Hall]. intros b. now apply flags_kept_trans.
Qed.

Lemma trace_from_kept (remaining : nat) :
  forall (k : nat) (st : gee_state),
    StronglySorted flags_kept (st :: trace (initializeGEE_from remaining env k st)).
Proof.
  assert (Hone : forall st, StronglySorted flags_kept [st])
    by (intros st; repeat constructor).
  assert (Hauth : forall st, flags_kept st (authenticated st))
    by (intros st; split; cbn; auto).
  assert (Hinit : forall st, flags_kept st (initialized st))
    by (intros st; split; cbn; auto).
  induction remaining as [| r IH]; intros k st; cbn;
    destruct (env k) eqn:Ho; cbn; auto using flags_kept_cons.
Qed.

Lemma trace_from_invariant (remaining : nat) :
  forall (k : nat) (st : gee_state),
    (geeInitialized st = true -> geeAuthenticated st = true) ->
    Forall (fun s => geeInitialized s = true -> geeAuthenticated s = true)
           (trace (initializeGEE_from remaining env k st)).
Proof.
  induction remaining as [| r IH]; intros k st Hst; cbn;
    destruct (env k) eqn:Ho; cbn; repeat constructor; auto.
Qed.

Lemma visible_flags :
  Forall (fun st => isGEEReady st = geeInitialized st) (visible (startup env)) /\
  StronglySorted flags_kept (visible (startup env)).
Proof.
  split.
  - assert (H : Forall (fun s => geeInitialized s = true ->
                                 geeAuthenticated s = true)
                       (visible (startup env))).
    { constructor; [discriminate|].
      apply trace_from_invariant. discriminate. }
    eapply Forall_impl; [|exact H]. cbn. intros st Hst. unfold isGEEReady.
    destruct (geeInitialized st); [now rewrite Hst | apply andb_false_r].
  - apply trace_from_kept.
Qed.

(** X2: at every moment of the setup the client is initialized only if it
    is authenticated, so that it is ready exactly when it is initialized;
    and a flag that is set stays set, also through a later attempt that
    fails. *)
Theorem setup_flags :
  Forall (fun st => isGEEReady st = geeInitialized st) (visible (startup env)) /\
  StronglySorted flags_kept (visible (startup env)).
Proof. exact visible_flags. Qed.

Lemma attempt_states_caught (o : outcome) (st : gee_state) :
  caught o = true ->
  geeInitialized (last (attempt_states o st) st) = geeInitialized st.
Proof. now destruct o. Qed.

Lemma ready_from_spec (remaining : nat) :
  forall (k : nat) (st : gee_state),
    geeInitialized st = false ->
    geeInitialized (last (trace (initializeGEE_from remaining env k st)) st) = true <->
    exists j, (j <= remaining)%nat /\ env (k + j) = Succeeds /\
              forall i, (i < j)%nat -> caught (env (k + i)) = true.
Proof.
  induction remaining as [| r IH]; intros k st Hst.
  - cbn. split.
    + intros H. exists 0%nat. rewrite Nat.add_0_r. split; [lia|].
      split; [|intros i Hi; lia].
      destruct (env k); cbn in H; congruence.
    + intros (j & Hj & Hs & _). assert (j = 0)%nat as -> by lia.
      rewrite Nat.add_0_r in Hs. now rewrite Hs.
  - cbn. destruct (caught (env k)) eqn:Hc.
    + cbn [trace]. rewrite last_app_default.
      rewrite IH by (now rewrite attempt_states_caught).
      split; intros (j & Hj & Hs & Hall).
      * exists (S j). rewrite <- Nat.add_succ_comm. split; [lia|].
        split; [exact Hs|]. intros [| i] Hi; [now rewrite Nat.add_0_r|].
        rewrite <- Nat.add_succ_comm. apply Hall. lia.
      * destruct j as [| j].
        { rewrite Nat.add_0_r in Hs. rewrite Hs in Hc. discriminate. }
        exists j. rewrite Nat.add_succ_comm. split; [lia|].
        split; [exact Hs|]. intros i Hi. rewrite Nat.add_succ_comm.
        apply Hall. lia.
    + cbn [trace]. split.
      * intros H. exists 0%nat. rewrite Nat.add_0_r. split; [lia|].
        split; [|intros i Hi; lia].
        destruct (env k); cbn in H, Hc; congruence.
      * intros (j & Hj & Hs & Hall). destruct j as [| j].
        { rewrite Nat.add_0_r in Hs. now rewrite Hs. }
        specialize (Hall 0%nat ltac:(lia)). rewrite Nat.add_0_r in Hall.
        congruence.
Qed.

Lemma final_ready_iff :
  isGEEReady (final (startup env)) = true <->
  exists j, (j <= 3)%nat /\ env j = Succeeds /\
            forall i, (i < j)%nat -> caught (env i) = true.
Proof.
  assert (Hin : In (final (startup env)) (visible (startup env))).
  { unfold final, visible. generalize (trace (startup env)) at_start.
    induction l as [| x l IH]; intros d; [now left|].
    rewrite last_cons_default. right. apply IH. }
  pose proof (proj1 visible_flags) as Hall.
  rewrite Forall_forall in Hall. rewrite (Hall _ Hin).
  unfold final, startup, initializeGEE.
  apply (ready_from_spec (maxRetries - 0) 0 at_start eq_refl).
Qed.

(** X3: when the setup is over the client is ready exactly when one of
    the four attempts succeeded and every attempt before it ended in a
    failure callback (an attempt whose callbacks never come stops the
    setup for good). *)
Theorem setup_ready_iff :
  isGEEReady (final (startup env)) = true <->
  exists j, (j <= 3)%nat /\ env j = Succeeds /\
            forall i, (i < j)%nat -> caught (env i) = true.
Proof. exact final_ready_iff. Qed.

End SetupStates.

Section Endpoints.

Variable Date_value : string -> option Z.

Lemma valid_items_nil_iff (features : list feature) :
  valid_items features = [] <->
  Forall (fun f => prop_ndvi_mean f = None) features.
Proof.
  unfold valid_items. induction features as [| f l IH]; cbn.
  - split; [constructor | reflexivity].
  - destruct (prop_ndvi_mean f) eqn:Hf; cbn.
    + split; [discriminate|]. intros H. apply Forall_inv in H. congruence.
    + rewrite IH. split; [now constructor | apply Forall_inv_tail].
Qed.

Lemma valid_items_cons_iff (features : list feature) :
  valid_items features <> [] <->
  Exists (fun f => prop_ndvi_mean f <> None) features.
Proof.
  rewrite valid_items_nil_iff. split.
  - intros H. induction features as [| f l IH].
    + exfalso. apply H. constructor.
    + destruct (prop_ndvi_mean f) eqn:Hf.
      * left. congruence.
      * right. apply IH. intros Hl. apply H. now constructor.
  - intros He Hf. rewrite Forall_forall in Hf. apply Exists_exists in He.
    destruct He as (f & Hin & Hne). now apply Hne, Hf.
Qed.

(** X4: the four answers of the time-series endpoint: 503, carrying the
    two flags, exactly when the client is not ready; 500 exactly when it
    is ready and the Earth Engine calls throw; 404 exactly when it is
    ready and every fetched value is [null] (or nothing was fetched); an
    analysis exactly when it is ready and some fetched value is not
    [null]. *)
Theorem timeseries_handler_status (st : gee_state) (req : request)
    (getInfo : option (list feature)) :
  let answer := ndvi_timeseries_handler Date_value st req getInfo in
  ((exists a i, answer = NotReady a i) <-> isGEEReady st = false) /\
  (isGEEReady st = false ->
   answer = NotReady (geeAuthenticated st) (geeInitialized st)) /\
  (answer = Failed <-> isGEEReady st = true /\ getInfo = None) /\
  (answer = NoData <->
   isGEEReady st = true /\
   exists features, getInfo = Some features /\
                    Forall (fun f => prop_ndvi_mean f = None) features) /\
  ((exists a ts s, answer = Analysis a ts s) <->
   isGEEReady st = true /\
   exists features, getInfo = Some features /\
                    Exists (fun f => prop_ndvi_mean f <> None) features).
Proof.
  intros answer. unfold answer, ndvi_timeseries_handler.
  destruct (isGEEReady st) eqn:Hr; cbn [negb];
    [destruct getInfo as [features |];
     [destruct (valid_items features) as [| it l] eqn:Hv;
      [assert (He : evaluate Date_value req features = NoData)
         by (now apply evaluate_no_data_iff)
      |assert (Hne : valid_items features <> []) by (now rewrite Hv);
       destruct (evaluate_total Date_value req features Hne) as (_ & He)];
      rewrite He |] |];
    repeat match goal with
           | |- _ /\ _ => split
           | |- _ <-> _ => split
           end;
    intros;
    repeat match goal with
           | H : exists _, _ |- _ => destruct H
           | H : _ /\ _ |- _ => destruct H
           end;
    try discriminate; try reflexivity;
    repeat match goal with
           | H : Some _ = Some _ |- _ => injection H as <-
           end;
    try (split; [reflexivity|]); eauto.
  - exists features. split; [reflexivity|]. now apply valid_items_nil_iff.
  - exfalso. match goal with H : Exists _ _ |- _ =>
      apply valid_items_cons_iff in H; now rewrite Hv in H end.
  - exfalso. match goal with H : Forall _ _ |- _ =>
      apply valid_items_nil_iff in H; now rewrite Hv in H end.
  - exists features. split; [reflexivity|]. now apply valid_items_cons_iff.
Qed.

End Endpoints.

Section SetupAndEndpoints.

Import Setup.

Lemma sorted_below_last (l : list gee_state) :
  forall d, StronglySorted flags_kept (d :: l) ->
            forall x, In x (d :: l) -> flags_kept x (last l d).
Proof.
  induction l as [| y l IH]; intros d Hs x Hin.
  - destruct Hin as [<- | []]. apply flags_kept_refl.
  - rewrite last_cons_default.
    pose proof (StronglySorted_inv Hs) as [Hs' Hall].
    destruct Hin as [<- | Hin]; [|now apply IH].
    apply flags_kept_trans with y; [now apply Forall_inv in Hall|].
    apply IH; [exact Hs' | now left].
Qed.

(** X5: when none of the four attempts succeeds, every request, at any
    moment of the setup and after it, is answered 503 by both endpoints,
    whatever it asks and whatever Earth Engine would have returned. *)
Theorem endpoints_without_setup (env : nat -> outcome) :
  (forall j, (j <= 3)%nat -> env j <> Succeeds) ->
  forall st, In st (visible (startup env)) ->
  forall (Date_value : string -> option Z) (req : request)
         (fetched : option (list feature)) (stats : option (option float)),
    ndvi_timeseries_handler Date_value st req fetched =
      NotReady (geeAuthenticated st) (geeInitialized st) /\
    ndvi_handler st req stats =
      NdviNotReady (geeAuthenticated st) (geeInitialized st).
Proof.
  intros Hnone st Hin Date_value req fetched stats.
  assert (Hfinal : isGEEReady (final (startup env)) <> true).
  { rewrite final_ready_iff. intros (j & Hj & Hs & _). now apply (Hnone j). }
  assert (Hst : isGEEReady st = false).
  { destruct (isGEEReady st) eqn:Hr; [|reflexivity]. exfalso. apply Hfinal.
    destruct (visible_flags env) as (Hready & Hsorted).
    pose proof (sorted_below_last _ _ Hsorted st Hin) as [_ Hkept].
    rewrite Forall_forall in Hready.
    assert (Hf : In (final (startup env)) (visible (startup env))).
    { unfold final, visible. generalize (trace (startup env)) at_start.
      induction l as [| x l IH]; intros d; [now left|].
      rewrite last_cons_default. right. apply IH. }
    rewrite (Hready _ Hf). apply Hkept. now rewrite <- (Hready _ Hin). }
  unfold ndvi_timeseries_handler, ndvi_handler. now rewrite Hst.
Qed.

End SetupAndEndpoints.

Lemma endpoints_without_setup_witness :
  ndvi_timeseries_handler IsoDate.parse
    {| geeAuthenticated := true; geeInitialized := false |}
    Samples.req (Some Samples.four) = NotReady true false /\
  ndvi_handler {| geeAuthenticated := true; geeInitialized := false |}
    Samples.req (Some (Some 0.5)) = NdviNotReady true false.
Proof.
  apply (endpoints_without_setup (fun _ => Setup.InitFails)).
  - discriminate.
  - right. left. reflexivity.
Defined.

(** * More on the evaluation *)

Module SubtractionFacts.

Import Binary64.
#[local] Open Scope Z_scope.

(** The sign given to [binary_round_aux] only signs its result. *)
Lemma SFabs_binary_round_aux (s s' : bool) (m e : Z) (l : location) :
  SFabs (binary_round_aux prec emax s m e l) =
  SFabs (binary_round_aux prec emax s' m e l).
Proof.
  unfold binary_round_aux.
  destruct (shr_fexp prec emax m e l) as [mrs' e'].
  destruct (shr_fexp prec emax _ e' loc_Exact) as [mrs'' e''].
  destruct (shr_m mrs''); try reflexivity.
  now destruct (e'' <=? emax - prec).
Qed.

Lemma SFabs_binary_normalize_opp (m e : Z) :
  SFabs (binary_normalize prec emax (- m) e false) =
  SFabs (binary_normalize prec emax m e false).
Proof.
  destruct m as [| p | p]; cbn [Z.opp binary_normalize]; try reflexivity;
    unfold binary_round; destruct (shl_align _ _ _) as [mz ez];
    apply SFabs_binary_round_aux.
Qed.

(** The two differences of two numbers have the same absolute value. *)
Lemma SFabs_sub_swap (x y : spec_float) :
  SFabs (SF64sub x y) = SFabs (SF64sub y x).
Proof.
  destruct x as [s | s | | s m e], y as [s' | s' | | s' m' e'];
    try reflexivity; try (now destruct s, s').
  unfold SF64sub, SFsub. rewrite (Z.min_comm e' e).
  rewrite <- SFabs_binary_normalize_opp. f_equal. f_equal. lia.
Qed.

End SubtractionFacts.

Lemma abs_sub_swap (a b : float) : abs (a - b) = abs (b - a).
Proof.
  apply Prim2SF_inj. rewrite !abs_spec, !sub_spec.
  apply SubtractionFacts.SFabs_sub_swap.
Qed.

Section Chronology.

Variable Date_value : string -> option Z.

Lemma not_later_trans (a b c : item) :
  not_later Date_value a b -> not_later Date_value b c ->
  not_later Date_value a c.
Proof.
  unfold not_later.
  destruct (time_of Date_value a), (time_of Date_value b),
    (time_of Date_value c); try tauto. lia.
Qed.

Lemma insert_item_sorted (x : item) (l : list item) :
  time_of Date_value x <> None ->
  Forall (fun it => time_of Date_value it <> None) l ->
  StronglySorted (not_later Date_value) l ->
  StronglySorted (not_later Date_value) (insert_item Date_value x l).
Proof.
  intros Hx Hl Hs. induction l as [| y l IH]; cbn.
  - repeat constructor.
  - apply Forall_cons_iff in Hl as (Hy & Hl).
    apply StronglySorted_inv in Hs as (Hs & Hall).
    assert (Hcmp : forall tx ty, time_of Date_value x = Some tx ->
                   time_of Date_value y = Some ty ->
                   sort_compare Date_value x y = (tx - ty)%Z)
      by (intros tx ty Ex Ey; unfold sort_compare, date_diff;
          now rewrite Ex, Ey).
    destruct (time_of Date_value x) as [tx |] eqn:Ex; [|contradiction].
    destruct (time_of Date_value y) as [ty |] eqn:Ey; [|contradiction].
    rewrite (Hcmp tx ty eq_refl eq_refl).
    destruct (Z.leb_spec (tx - ty) 0) as [Hle | Hgt].
    + assert (Hxy : not_later Date_value x y)
        by (unfold not_later; rewrite Ex, Ey; lia).
      constructor; [now constructor|].
      constructor; [exact Hxy|].
      eapply Forall_impl; [|exact Hall]. intros z. now apply not_later_trans.
    + constructor; [now apply IH|].
      eapply Permutation_Forall; [symmetry; apply insert_item_perm|].
      constructor; [|exact Hall].
      unfold not_later. rewrite Ex, Ey. lia.
Qed.

Lemma Array_sort_sorted (l : list item) :
  Forall (fun it => time_of Date_value it <> None) l ->
  StronglySorted (not_later Date_value) (Array_sort Date_value l).
Proof.
  induction 1 as [| x l Hx Hl IH]; cbn; [constructor|].
  apply insert_item_sorted; [exact Hx | | exact IH].
  eapply Permutation_Forall; [symmetry; apply Array_sort_perm | exact Hl].
Qed.

(** X6: when the dates of the valid samples are all valid, the series of
    the answer is in chronological order: every entry is dated no later
    than every entry after it. *)
Theorem timeseries_chronological (features : list feature) :
  Forall (fun it => time_of Date_value it <> None) (valid_items features) ->
  StronglySorted (not_later Date_value) (timeseries Date_value features).
Proof. apply Array_sort_sorted. Qed.

End Chronology.

Lemma timeseries_chronological_witness :
  StronglySorted (not_later IsoDate.parse)
    (timeseries IsoDate.parse Samples.four).
Proof.
  apply (timeseries_chronological IsoDate.parse Samples.four).
  repeat constructor; discriminate.
Defined.

Section ConfidenceRange.

Variable Date_value : string -> option Z.

Import FloatFacts.

Lemma mul_two_nan (x : float) : is_nan (x * 2) = is_nan x.
Proof.
  rewrite !is_nan_spec, mul_two_spec.
  destruct (Prim2SF x) as [s | s | | s m e]; try reflexivity.
  cbn [Binary64.SFdouble].
  now destruct (Z.pos (digits2_pos m) =? 53)%Z, (e + 1 <=? 971)%Z.
Qed.

Lemma leb_not_nan_r (c x : float) : (c <=? x) = true -> is_nan x = false.
Proof.
  intros H. destruct (is_nan x) eqn:Hn; [|reflexivity].
  now rewrite (leb_nan_r c x Hn) in H.
Qed.

(** The confidence is NaN exactly when the difference of the means is,
    and lies between [0] and [1] otherwise. *)
Lemma confidence_nan_or_unit (d : float) :
  is_nan (JS.Math_min (JS.Math_abs d * 2) 1) = is_nan d /\
  (is_nan d = false ->
   (0 <=? JS.Math_min (JS.Math_abs d * 2) 1) = true /\
   (JS.Math_min (JS.Math_abs d * 2) 1 <=? 1) = true).
Proof.
  unfold JS.Math_abs. destruct (is_nan d) eqn:Hd.
  - split; [|discriminate]. unfold JS.Math_min.
    now rewrite mul_two_nan, abs_not_nan, Hd.
  - destruct (confidence_in_unit_interval d Hd) as (H0 & H1).
    split; [|auto]. now apply leb_not_nan_r in H0.
Qed.

(** X7: for an input with at least one valid sample the confidence of
    the answer is never outside [0, 1]: it is NaN exactly when the
    difference of the two segment means is NaN, and otherwise a number
    between [0] and [1]. *)
Theorem confidence_range (req : request) (features : list feature) :
  valid_items features <> [] ->
  exists (ts : list item) (s : summary_t),
    evaluate Date_value req features = Analysis (aoi req) ts s /\
    let values := ndviValues ts in
    let d := firstHalfMean values - secondHalfMean values in
    is_nan (confidence s) = is_nan d /\
    (is_nan d = false ->
     (0 <=? confidence s) = true /\ (confidence s <=? 1) = true).
Proof.
  intros Hne. destruct (evaluate_total Date_value req features Hne) as (_ & He).
  eexists _, _. split; [exact He|].
  cbn [confidence summary_of]. unfold confidence_of, raw_delta, scale_factor.
  apply confidence_nan_or_unit.
Qed.

End ConfidenceRange.

Lemma confidence_range_witness :
  exists (ts : list item) (s : summary_t),
    evaluate IsoDate.parse Samples.req Samples.huge = Analysis "{}" ts s /\
    is_nan (confidence s) = true.
Proof.
  destruct (confidence_range IsoDate.parse Samples.req Samples.huge)
    as (ts & s & He & Hnan & _); [discriminate|].
  exists ts, s. split; [exact He|].
  rewrite Hnan. vm_compute in He. injection He as <- _. reflexivity.
Defined.

Section Direction.

(** The two halves of a series of even length, exchanged. *)
Lemma halves_exchanged (values : list float) :
  Nat.even (length values) = true ->
  firstHalf (secondHalf values ++ firstHalf values)%list = secondHalf values /\
  secondHalf (secondHalf values ++ firstHalf values)%list = firstHalf values.
Proof.
  intros Heven.
  assert (Hmod : (length values mod 2 = 0)%nat).
  { apply Nat.even_spec in Heven as [k Hk]. rewrite Hk, Nat.mul_comm.
    apply Nat.Div0.mod_mul. }
  pose proof (firstHalf_length values) as H1.
  pose proof (secondHalf_length values) as H2.
  rewrite Hmod, Nat.add_0_r in H2.
  assert (Hmid : midPoint (secondHalf values ++ firstHalf values)%list =
                 length (secondHalf values)).
  { unfold midPoint, JS.floor_half. rewrite length_app, H1, H2.
    pose proof (Nat.div_mod_eq (length values) 2). 
    replace (length values / 2 + length values / 2)%nat with (length values) by lia.
    reflexivity. }
  split.
  - unfold firstHalf at 1. rewrite Hmid.
    rewrite firstn_app, Nat.sub_diag, firstn_all. cbn. apply app_nil_r.
  - unfold secondHalf at 1. rewrite Hmid.
    rewrite skipn_app, Nat.sub_diag, skipn_all. reflexivity.
Qed.

(** X8: the heuristic does not tell a rise from a drop: exchanging the
    earlier and the later half of a series of even length changes neither
    the flag nor the confidence. *)
Theorem heuristic_direction_blind (values : list float) :
  Nat.even (length values) = true ->
  let exchanged := (secondHalf values ++ firstHalf values)%list in
  raw_delta exchanged = raw_delta values /\
  changeDetected exchanged = changeDetected values /\
  confidence_of exchanged = confidence_of values.
Proof.
  intros Heven exchanged.
  destruct (halves_exchanged values Heven) as (H1 & H2).
  assert (Hd : raw_delta exchanged = raw_delta values).
  { unfold raw_delta, firstHalfMean, secondHalfMean, exchanged, JS.Math_abs.
    rewrite H1, H2. apply abs_sub_swap. }
  unfold changeDetected, confidence_of. now rewrite Hd.
Qed.

End Direction.

Lemma heuristic_direction_blind_witness :
  raw_delta [0.5; 0.5; 0.1; 0.1] = raw_delta [0.1; 0.1; 0.5; 0.5] /\
  changeDetected [0.5; 0.5; 0.1; 0.1] = changeDetected [0.1; 0.1; 0.5; 0.5] /\
  confidence_of [0.5; 0.5; 0.1; 0.1] = confidence_of [0.1; 0.1; 0.5; 0.5].
Proof.
  exact (heuristic_direction_blind [0.1; 0.1; 0.5; 0.5] eq_refl).
Defined.

(** * The areas drawn on the map *)

Module MinMaxFacts.

Import Binary64 Binary64Facts FloatFacts AreaSelection.

(** Numbers that compare as equal are the same, or are two zeros. *)
Lemma SFcompare_Eq (x y : spec_float) :
  SFcompare x y = Some Eq ->
  x = y \/ exists s s', x = S754_zero s /\ y = S754_zero s'.
Proof.
  destruct x as [s | s | | s m e], y as [s' | s' | | s' m' e']; cbn;
    try discriminate; try (destruct s; discriminate);
    try (destruct s'; discriminate).
  - intros _. right. eauto.
  - destruct s, s'; try discriminate; now left.
  - destruct s, s'; try discriminate;
      destruct (Z.compare_spec e e') as [-> | |]; try discriminate;
      intros H; left; f_equal.
    + injection H as H. apply (f_equal CompOpp) in H.
      rewrite CompOpp_involutive in H. now apply Pos.compare_eq.
    + injection H as H. now apply Pos.compare_eq.
Qed.

(** What is left when two numbers are not ordered strictly. *)
Lemma unordered_cases (a b : float) :
  is_nan a = false -> is_nan b = false ->
  (a <? b) = false -> (b <? a) = false ->
  SFcompare (Prim2SF a) (Prim2SF b) = Some Eq.
Proof.
  rewrite !is_nan_spec, !ltb_spec. unfold SFltb.
  rewrite (SFcompare_swap (Prim2SF a) (Prim2SF b)).
  destruct (SFcompare (Prim2SF a) (Prim2SF b)) as [[] |] eqn:Hc;
    try discriminate; try reflexivity.
  intros Ha Hb _ _. destruct (Prim2SF a), (Prim2SF b); discriminate.
Qed.

Lemma unordered_tie (a b : float) :
  is_nan a = false -> is_nan b = false ->
  (a <? b) = false -> (b <? a) = false ->
  (if JS.is_neg_zero a then a else b) = (if JS.is_neg_zero b then b else a) /\
  (if JS.is_neg_zero a then b else a) = (if JS.is_neg_zero b then a else b).
Proof.
  intros Ha Hb Hab Hba.
  destruct (SFcompare_Eq _ _ (unordered_cases a b Ha Hb Hab Hba))
    as [E | (s & s' & Ea & Eb)].
  - apply Prim2SF_inj in E. subst b. now destruct (JS.is_neg_zero a).
  - rewrite !is_neg_zero_spec, Ea, Eb.
    destruct s, s'; split; try reflexivity;
      apply Prim2SF_inj; now rewrite Ea, Eb.
Qed.

Lemma Math_min_comm (a b : float) : JS.Math_min a b = JS.Math_min b a.
Proof.
  unfold JS.Math_min. rewrite (orb_comm (is_nan b)).
  destruct (is_nan a) eqn:Ha; [reflexivity|].
  destruct (is_nan b) eqn:Hb; [reflexivity|]. cbn [orb].
  destruct (a <? b) eqn:Hab.
  - now rewrite (ltb_asym _ _ Hab).
  - destruct (b <? a) eqn:Hba; [reflexivity|].
    now apply unordered_tie.
Qed.

Lemma Math_max_comm (a b : float) : Math_max a b = Math_max b a.
Proof.
  unfold Math_max. rewrite (orb_comm (is_nan b)).
  destruct (is_nan a) eqn:Ha; [reflexivity|].
  destruct (is_nan b) eqn:Hb; [reflexivity|]. cbn [orb].
  destruct (a <? b) eqn:Hab.
  - now rewrite (ltb_asym _ _ Hab).
  - destruct (b <? a) eqn:Hba; [reflexivity|].
    now apply unordered_tie.
Qed.

Lemma leb_of_compare_Eq (a b : float) :
  SFcompare (Prim2SF a) (Prim2SF b) = Some Eq -> (a <=? b) = true.
Proof. rewrite leb_spec. unfold SFleb. now intros ->. Qed.

Lemma leb_refl (a : float) : is_nan a = false -> (a <=? a) = true.
Proof.
  intros Ha. apply leb_of_compare_Eq.
  pose proof (SFeqb_refl (Prim2SF a)) as H. rewrite <- is_nan_spec, Ha in H.
  unfold SFeqb in H. now destruct (SFcompare (Prim2SF a) (Prim2SF a)) as [[] |].
Qed.

(** Of two numbers the least is at most the greatest. *)
Lemma Math_min_le_max (a b : float) :
  is_nan a = false -> is_nan b = false ->
  (JS.Math_min a b <=? Math_max a b) = true.
Proof.
  intros Ha Hb. unfold JS.Math_min, Math_max. rewrite Ha, Hb. cbn [orb].
  destruct (a <? b) eqn:Hab; [now apply ltb_leb|].
  destruct (b <? a) eqn:Hba; [now apply ltb_leb|].
  pose proof (unordered_cases a b Ha Hb Hab Hba) as Hc.
  assert (Hc' : SFcompare (Prim2SF b) (Prim2SF a) = Some Eq)
    by (now rewrite SFcompare_swap, Hc).
  destruct (JS.is_neg_zero a);
    auto using leb_of_compare_Eq, leb_refl.
Qed.

End MinMaxFacts.

Section DrawnPolygons.

Import GeoJSON MapDrawing.

Lemma flip_flip (p : float * float) : flip (flip p) = p.
Proof. now destruct p. Qed.

Lemma defined_map_Some (l : list position) : defined (map Some l) = Some l.
Proof. induction l as [| c l IH]; cbn; [reflexivity | now rewrite IH]. Qed.

(** X9: the polygon completed from a path that is not empty has one ring:
    the points of the path in order, each as [lng, lat], closed by a copy
    of the first one (one position more than the path has points); and
    the polygon shown for it passes through the points of the path and
    back to the first. *)
Theorem completed_area_ring (p : latlng) (rest : list latlng) :
  coordinates (area_of (p :: rest)) =
    [map Some (flip p :: map flip rest ++ [flip p])%list] /\
  shown_positions (area_of (p :: rest)) = Some (p :: rest ++ [p])%list.
Proof.
  assert (H : coordinates (area_of (p :: rest)) =
              [map Some (flip p :: map flip rest ++ [flip p])%list]).
  { unfold area_of. cbn [map hd coordinates app]. rewrite map_app, map_map.
    reflexivity. }
  split; [exact H|].
  unfold shown_positions. rewrite H, defined_map_Some. cbn [option_map map].
  rewrite map_app, map_map, flip_flip. cbn [map]. rewrite flip_flip.
  now rewrite (map_ext (fun x => flip (flip x)) (fun x => x) flip_flip), map_id.
Qed.

Lemma area_of_three (pts : list latlng) :
  length pts = 3%nat -> closed_ring_of 4 (area_of pts).
Proof.
  destruct pts as [| p1 [| p2 [| p3 [| p4 l]]]]; try discriminate.
  intros _. exists (flip p1), [flip p2; flip p3]. now split.
Qed.

Lemma area_of_four (pts : list latlng) :
  length pts = 4%nat -> closed_ring_of 5 (area_of pts).
Proof.
  destruct pts as [| p1 [| p2 [| p3 [| p4 [| p5 l]]]]]; try discriminate.
  intros _. exists (flip p1), [flip p2; flip p3; flip p4]. now split.
Qed.

Lemma on_event_ok (st : drawing) (e : map_event) :
  drawing_ok st ->
  drawing_ok (fst (on_event st e)) /\
  forall a, snd (on_event st e) = Some a ->
            closed_ring_of 4 a \/ closed_ring_of 5 a.
Proof.
  intros (Hidle & Hbusy). unfold on_event, drawing_ok, completeArea.
  destruct e as [p |]; destruct (isDrawing st) eqn:Hd; cbn [negb andb].
  - specialize (Hbusy eq_refl).
    destruct (Nat.ltb_spec (length (currentPath st)) 4) as [_ | H4]; [|lia].
    destruct (Nat.eqb_spec (length (currentPath st)) 3) as [H3 | H3];
      cbn [fst snd isDrawing currentPath idle].
    + split; [split; [reflexivity | discriminate]|].
      intros a Ha. injection Ha as <-. right. apply area_of_four.
      rewrite length_app, H3. reflexivity.
    + split; [|discriminate]. split; [congruence|]. intros _.
      rewrite length_app. cbn [length]. lia.
  - cbn [fst snd isDrawing currentPath]. split; [|discriminate].
    split; [discriminate|]. cbn [length]. lia.
  - specialize (Hbusy eq_refl).
    destruct (Nat.leb_spec 3 (length (currentPath st))) as [H3 | H3];
      cbn [fst snd isDrawing currentPath idle].
    + split; [split; [reflexivity | discriminate]|].
      intros a Ha. injection Ha as <-. left. apply area_of_three. lia.
    + split; [|discriminate]. rewrite Hd. split; [discriminate | auto].
  - cbn [fst snd]. split; [|discriminate]. rewrite Hd.
    split; [exact Hidle | discriminate].
Qed.

Lemma run_ok (events : list map_event) :
  forall st, drawing_ok st ->
    drawing_ok (fst (run st events)) /\
    Forall (fun a => closed_ring_of 4 a \/ closed_ring_of 5 a)
           (snd (run st events)).
Proof.
  induction events as [| e events IH]; intros st Hst; cbn.
  - split; [exact Hst | constructor].
  - destruct (on_event_ok st e Hst) as (Hst' & Hout).
    destruct (on_event st e) as [st' out]. cbn [fst snd] in Hst', Hout.
    destruct (IH st' Hst') as (Hst'' & Houts).
    destruct (run st' events) as [st'' outs]. cbn [fst snd] in *.
    split; [exact Hst''|].
    destruct out as [a |]; [constructor; auto | exact Houts].
Qed.

(** X10: whatever is clicked and double-clicked, starting with nothing
    drawn: while a polygon is being drawn its path holds one to three
    points, and otherwise none; and every polygon selected has a single
    ring, closed, of four or five positions (three or four points and the
    copy of the first). *)
Theorem drawing_invariant (events : list map_event) :
  let st := fst (run idle events) in
  (isDrawing st = false -> currentPath st = []) /\
  (isDrawing st = true -> (1 <= length (currentPath st) <= 3)%nat) /\
  Forall (fun a => closed_ring_of 4 a \/ closed_ring_of 5 a)
         (snd (run idle events)).
Proof.
  destruct (run_ok events idle) as ((H1 & H2) & H3).
  - split; [reflexivity | discriminate].
  - cbn zeta. auto.
Qed.

End DrawnPolygons.

Section SelectedRectangles.

Import GeoJSON AreaSelection MinMaxFacts.

(** X11: a rectangle dragged from one corner to the opposite one is the
    rectangle dragged the other way: the polygon and the bounds depend on
    the two corners only. *)
Theorem drag_direction_irrelevant (p q : latlng) :
  createGeoJSONFromBounds p q = createGeoJSONFromBounds q p /\
  bounds_of p q = bounds_of q p.
Proof.
  unfold createGeoJSONFromBounds, bounds_of.
  now rewrite (Math_min_comm (fst p)), (Math_min_comm (snd p)),
    (Math_max_comm (fst p)), (Math_max_comm (snd p)).
Qed.

(** X12: for two corners whose coordinates are numbers, the bounds read
    off the dragged polygon are the bounds previewed during the drag, and
    their first corner is south-west of the second: its latitude and its
    longitude are at most those of the second. *)
Theorem drag_bounds_ordered (p q : latlng) :
  is_nan (fst p) = false -> is_nan (snd p) = false ->
  is_nan (fst q) = false -> is_nan (snd q) = false ->
  exists (sw ne : latlng),
    selected_bounds (createGeoJSONFromBounds p q) = Some (sw, ne) /\
    bounds_of p q = (sw, ne) /\
    (fst sw <=? fst ne) = true /\ (snd sw <=? snd ne) = true.
Proof.
  intros H1 H2 H3 H4.
  exists (JS.Math_min (fst p) (fst q), JS.Math_min (snd p) (snd q)),
         (Math_max (fst p) (fst q), Math_max (snd p) (snd q)).
  repeat split; cbn [fst snd]; now apply Math_min_le_max.
Qed.

Lemma rectangle_closed (c0 c1 c2 c3 : position) :
  let a := {| coordinates := [[Some c0; Some c1; Some c2; Some c3; Some c0]] |} in
  closed_ring_of 5 a /\ selected_bounds a = Some (flip c0, flip c2).
Proof. split; [exists c0, [c1; c2; c3]; now split | reflexivity]. Qed.

Lemma on_mouse_ok (m : mode) (st : selector) (e : mouse_event) :
  selector_ok st ->
  selector_ok (fst (on_mouse m st e)) /\
  forall a, snd (on_mouse m st e) = Some a ->
            closed_ring_of 5 a /\ exists b, selected_bounds a = Some b.
Proof.
  intros (Hdrag & Hstart & Htemp). unfold on_mouse, selector_ok.
  destruct e as [p | p | p | p], m,
    (isSelecting st) eqn:Hs, (startPoint st) as [start |] eqn:Hp;
    cbn [fst snd isSelecting startPoint tempBounds map_dragging negb];
    rewrite ?Hs, ?Hp;
    (split;
     [ repeat split; intros; try discriminate; try congruence; try tauto;
       try (exfalso; tauto)
     | intros a Ha; try discriminate Ha ]);
    try (destruct (_ && _); [|discriminate Ha]);
    try (injection Ha as <-;
         split; [apply rectangle_closed | eexists; apply rectangle_closed]).
Qed.

Lemma run_mouse_ok (events : list (mode * mouse_event)) :
  forall st, selector_ok st ->
    selector_ok (fst (run st events)) /\
    Forall (fun a => closed_ring_of 5 a /\ exists b, selected_bounds a = Some b)
           (snd (run st events)).
Proof.
  induction events as [| [m e] events IH]; intros st Hst; cbn.
  - split; [exact Hst | constructor].
  - destruct (on_mouse_ok m st e Hst) as (Hst' & Hout).
    destruct (on_mouse m st e) as [st' out]. cbn [fst snd] in Hst', Hout.
    destruct (IH st' Hst') as (Hst'' & Houts).
    destruct (run st' events) as [st'' outs]. cbn [fst snd] in *.
    split; [exact Hst''|].
    destruct out as [a |]; [constructor; auto | exact Houts].
Qed.

(** X13: whatever the mouse does and however the selection mode is
    switched in between, starting at rest: the map can be dragged exactly
    when no selection is going on, a selection going on has its start
    point, a rectangle is previewed only during a selection; and every
    polygon selected has a single ring of five positions, closed, off
    which the bounds of the selection are read without an exception. *)
Theorem selector_invariant (events : list (mode * mouse_event)) :
  let st := fst (run at_rest events) in
  map_dragging st = negb (isSelecting st) /\
  (isSelecting st = true <-> startPoint st <> None) /\
  (tempBounds st <> None -> isSelecting st = true) /\
  Forall (fun a => closed_ring_of 5 a /\ exists b, selected_bounds a = Some b)
         (snd (run at_rest events)).
Proof.
  destruct (run_mouse_ok events at_rest) as ((H1 & H2 & H3) & H4).
  - unfold selector_ok. cbn. intuition congruence.
  - cbn zeta. auto.
Qed.

End SelectedRectangles.

Lemma drag_bounds_ordered_witness :
  exists (sw ne : GeoJSON.latlng),
    AreaSelection.selected_bounds
      (AreaSelection.createGeoJSONFromBounds (40.8, -73.9) (40.6, -74.1)) =
    Some (sw, ne) /\
    AreaSelection.bounds_of (40.8, -73.9) (40.6, -74.1) = (sw, ne) /\
    (fst sw <=? fst ne) = true /\ (snd sw <=? snd ne) = true.
Proof.
  apply (drag_bounds_ordered (40.8, -73.9) (40.6, -74.1)); reflexivity.
Defined.

(** * The summary shown *)

Section ShownSummary.

Variable Date_value : string -> option Z.

Import Binary64 FloatFacts ResultPanel.

Lemma is_zero_spec (x : float) :
  is_zero x = match Prim2SF x with
              | S754_zero _ => true
              | _ => false
              end.
Proof.
  unfold is_zero. rewrite eqb_spec. change (Prim2SF zero) with (S754_zero false).
  now destruct (Prim2SF x) as [[] | [] | | [] m e].
Qed.

Lemma is_zero_double_abs (d : float) : is_zero (abs d * 2) = is_zero d.
Proof.
  rewrite !is_zero_spec, mul_two_spec, abs_spec.
  destruct (Prim2SF d) as [s | s | | s m e]; try reflexivity.
  cbn [SFabs SFdouble].
  now destruct (Z.pos (digits2_pos m) =? 53)%Z, (e + 1 <=? 971)%Z.
Qed.

Lemma leb_one_not_zero (a : float) : (1 <=? a) = true -> is_zero a = false.
Proof.
  rewrite leb_spec, is_zero_spec. change (Prim2SF 1) with SF_one.
  now destruct (Prim2SF a) as [[] | [] | | [] m e].
Qed.

Lemma not_zero_not_neg_zero (x : float) :
  is_zero x = false -> JS.is_neg_zero x = false.
Proof.
  rewrite is_zero_spec, is_neg_zero_spec.
  now destruct (Prim2SF x) as [[] | [] | | [] m e].
Qed.

Lemma is_zero_forget_sign (x : float) :
  is_zero (if JS.is_neg_zero x then 0 else x) = is_zero x.
Proof.
  rewrite is_neg_zero_spec, (is_zero_spec x).
  destruct (Prim2SF x) as [[] | [] | | [] m e] eqn:E; try reflexivity;
    now rewrite is_zero_spec, E.
Qed.

(** The confidence is zero exactly when the difference of the means is. *)
Lemma confidence_zero_iff (d : float) :
  is_nan d = false ->
  is_zero (JS.Math_min (JS.Math_abs d * 2) 1) = is_zero d.
Proof.
  intros Hd. unfold JS.Math_abs. rewrite <- (is_zero_double_abs d).
  destruct (Math_min_one_cases (abs d * 2)) as [[Hn _] | [[_ ->] | [Hle ->]]].
  - rewrite mul_two_nan, abs_not_nan in Hn. congruence.
  - reflexivity.
  - now rewrite (leb_one_not_zero _ Hle).
Qed.

Lemma confidence_card (d : float) :
  let c := JS.Math_min (JS.Math_abs d * 2) 1 in
  confidence_shown (wire_number c) =
  if is_nan d || is_zero d then NotAvailable else Percent (c * 100).
Proof.
  intros c. destruct (confidence_nan_or_unit d) as (Hnan & Hunit). fold c in Hnan, Hunit.
  unfold confidence_shown, wire_number, truthy.
  destruct (is_nan d) eqn:Hd; cbn [orb].
  - unfold is_finite. now rewrite Hnan.
  - destruct (Hunit eq_refl) as (H0 & H1).
    rewrite (unit_interval_finite c H0 H1).
    assert (Hz : is_zero c = is_zero d) by (now apply confidence_zero_iff).
    destruct (is_zero d) eqn:Hzd.
    + now rewrite is_zero_forget_sign, Hz, orb_true_r.
    + now rewrite (not_zero_not_neg_zero c Hz), Hnan, Hz.
Qed.

(** X14: for an answer with at least one valid sample, read back from the
    wire, the confidence card shows ['N/A'] exactly when the difference of
    the two segment means is zero or NaN, and the percentage of the
    confidence otherwise; and the observations card shows the number of
    valid samples, never one of its fallbacks. *)
Theorem summary_cards (req : request) (features : list feature) :
  valid_items features <> [] ->
  exists (ts : list item) (s : summary_t),
    evaluate Date_value req features = Analysis (aoi req) ts s /\
    let values := ndviValues ts in
    let d := firstHalfMean values - secondHalfMean values in
    confidence_shown (wire_number (confidence s)) =
      (if is_nan d || is_zero d then NotAvailable
       else Percent (confidence s * 100)) /\
    observations_shown (total_observations s) (length ts) =
      length (valid_items features).
Proof.
  intros Hne.
  destruct (evaluate_total Date_value req features Hne) as (Hts & He).
  eexists _, _. split; [exact He|].
  cbn [confidence total_observations summary_of].
  unfold confidence_of, raw_delta, scale_factor. split.
  - apply confidence_card.
  - unfold observations_shown.
    assert (Hl : length (timeseries Date_value features) =
                 length (valid_items features)) by apply Array_sort_length.
    destruct (Nat.eqb_spec (length (timeseries Date_value features)) 0)
      as [H0 | _]; [|exact Hl].
    apply length_zero_iff_nil in H0. contradiction.
Qed.

End ShownSummary.

Lemma summary_cards_witness :
  exists (ts : list item) (s : summary_t),
    evaluate IsoDate.parse Samples.req
      [Samples.sample "2024-03-01" (Some 0.5); Samples.sample "2024-03-02" (Some 0.5)]
    = Analysis "{}" ts s /\
    ResultPanel.confidence_shown (ResultPanel.wire_number (confidence s)) =
      ResultPanel.NotAvailable /\
    ResultPanel.observations_shown (total_observations s) (length ts) = 2%nat.
Proof.
  destruct (summary_cards IsoDate.parse Samples.req
              [Samples.sample "2024-03-01" (Some 0.5);
               Samples.sample "2024-03-02" (Some 0.5)])
    as (ts & s & He & Hc & Ho); [discriminate|].
  exists ts, s. split; [exact He|]. split; [|exact Ho].
  rewrite Hc. vm_compute in He. injection He as <- _. reflexivity.
Defined.

(** * Two samples *)

Section TwoSamples.

Variable Date_value : string -> option Z.

Import FloatFacts.

Lemma abs_sub_forget_zero_signs (x y : float) :
  abs ((if JS.is_neg_zero x then 0 else x) - (if JS.is_neg_zero y then 0 else y))
  = abs (x - y).
Proof.
  rewrite !is_neg_zero_spec. apply Prim2SF_inj.
  rewrite !abs_spec, !sub_spec.
  destruct (Prim2SF x) as [[] | [] | | [] m e] eqn:Ex,
           (Prim2SF y) as [[] | [] | | [] m' e'] eqn:Ey;
    rewrite ?Ex, ?Ey; try reflexivity;
    change (Prim2SF 0) with (S754_zero false); reflexivity.
Qed.

Lemma two_value_delta (x y : float) : raw_delta [x; y] = JS.Math_abs (x - y).
Proof.
  unfold raw_delta, firstHalfMean, secondHalfMean, firstHalf, secondHalf.
  change (midPoint [x; y]) with 1%nat. cbn [firstn skipn].
  change (mean_or_zero [x]) with (meanNdvi [x]).
  change (mean_or_zero [y]) with (meanNdvi [y]).
  rewrite !single_value_mean. unfold JS.Math_abs.
  apply abs_sub_forget_zero_signs.
Qed.

(** X15: when the series has exactly two entries, of values [x] then [y],
    the answer compares the two values themselves: a change is flagged
    exactly when [|x - y| > 0.1], the confidence is [min(2 |x - y|, 1)],
    and two observations are counted. *)
Theorem two_sample_assessment (req : request) (features : list feature)
    (d1 d2 : string) (x y : float) :
  timeseries Date_value features =
    [{| date := d1; ndvi_mean := Some x |}; {| date := d2; ndvi_mean := Some y |}] ->
  exists s : summary_t,
    evaluate Date_value req features =
      Analysis (aoi req)
        [{| date := d1; ndvi_mean := Some x |};
         {| date := d2; ndvi_mean := Some y |}] s /\
    change_detected s = JS.gt (JS.Math_abs (x - y)) 0.1 /\
    confidence s = JS.Math_min (JS.Math_abs (x - y) * 2) 1 /\
    total_observations s = 2%nat.
Proof.
  intros Hts. unfold evaluate. rewrite Hts. eexists. split; [reflexivity|].
  cbn [change_detected confidence total_observations summary_of].
  change (ndviValues _) with [x; y].
  unfold changeDetected, confidence_of. now rewrite two_value_delta.
Qed.

End TwoSamples.

Lemma two_sample_assessment_witness :
  exists s : summary_t,
    evaluate IsoDate.parse Samples.req Samples.boundary =
      Analysis "{}"
        [Samples.entry "2024-03-01" 0; Samples.entry "2024-03-02" 0.1] s /\
    change_detected s = false /\
    confidence s = 0.2 /\
    total_observations s = 2%nat.
Proof.
  exact (two_sample_assessment IsoDate.parse Samples.req Samples.boundary
           "2024-03-01" "2024-03-02" 0 0.1 eq_refl).
Defined.
